(** * pymap3d.latitude: geodetic and auxiliary latitudes

    A shallow embedding of [pymap3d/latitude.py] and the properties of its
    twelve conversions.

    Numbers.  A Python float is modelled by [pyfloat]: a real number, one of
    the two infinities, or not-a-number.  Finite arithmetic is exact (no
    rounding, no signed zero); the special values follow IEEE-754 as
    Python's [math] module and numpy expose them, and [exp] overflows
    where its exact value exceeds the largest double.  The two
    import branches of the source differ in how a domain error shows: with
    [use_numpy = False] the [math] functions and float division raise, with
    [use_numpy = True] numpy returns [inf] or [nan].  Every operation that
    differs takes the flag.

    Inputs are scalars; [numpy.vectorize] applied to a scalar calls the
    point function once. *)

From Stdlib Require Import Reals Lra R_Ifp List.
Import ListNotations.

Local Open Scope R_scope.

(** ** Exceptions and results *)

Inductive exn : Set :=
| ZeroDivisionError
| ValueError
| OverflowError
| TypeError.

Inductive result (A : Type) : Type :=
| Ok (a : A)
| Raise (e : exn).

Arguments Ok {A} a.
Arguments Raise {A} e.

Definition bind {A B : Type} (m : result A) (k : A -> result B) : result B :=
  match m with
  | Ok a => k a
  | Raise e => Raise e
  end.

Declare Scope py_monad_scope.
Delimit Scope py_monad_scope with pm.
Notation "x <- m ;; k" := (bind m (fun x => k))
  (at level 61, m at next level, right associativity) : py_monad_scope.
Notation "' pat <- m ;; k" := (bind m (fun x => match x with pat => k end))
  (at level 61, pat pattern, m at next level, right associativity) : py_monad_scope.

(** [try: body except ZeroDivisionError: handler] *)
Definition try_except_ZeroDivisionError {A : Type}
    (body : result A) (handler : result A) : result A :=
  match body with
  | Raise ZeroDivisionError => handler
  | r => r
  end.

(** ** Floats *)

Inductive pyfloat : Set :=
| Fin (r : R)
| PInf
| NInf
| NaN.

Coercion Fin : R >-> pyfloat.

Module Py.

(** The infinity carrying the sign of [s]; [nan] when [s] is zero. *)
Definition inf_of_sign (s : R) : pyfloat :=
  if Rlt_dec 0 s then PInf else if Rlt_dec s 0 then NInf else NaN.

Definition neg (x : pyfloat) : pyfloat :=
  match x with
  | Fin r => Fin (- r)
  | PInf => NInf
  | NInf => PInf
  | NaN => NaN
  end.

Definition abs (x : pyfloat) : pyfloat :=
  match x with
  | Fin r => Fin (Rabs r)
  | PInf | NInf => PInf
  | NaN => NaN
  end.

Definition add (x y : pyfloat) : pyfloat :=
  match x, y with
  | NaN, _ | _, NaN => NaN
  | Fin a, Fin b => Fin (a + b)
  | PInf, NInf | NInf, PInf => NaN
  | PInf, _ | _, PInf => PInf
  | NInf, _ | _, NInf => NInf
  end.

Definition sub (x y : pyfloat) : pyfloat := add x (neg y).

Definition mul (x y : pyfloat) : pyfloat :=
  match x, y with
  | NaN, _ | _, NaN => NaN
  | Fin a, Fin b => Fin (a * b)
  | Fin a, PInf | PInf, Fin a => inf_of_sign a
  | Fin a, NInf | NInf, Fin a => inf_of_sign (- a)
  | PInf, PInf | NInf, NInf => PInf
  | PInf, NInf | NInf, PInf => NInf
  end.

(** IEEE division; a zero divisor counts as [+0.0]. *)
Definition div_ieee (x y : pyfloat) : pyfloat :=
  match x, y with
  | NaN, _ | _, NaN => NaN
  | Fin a, Fin b => if Req_dec_T b 0 then inf_of_sign a else Fin (a / b)
  | Fin _, (PInf | NInf) => Fin 0
  | PInf, Fin b => if Rlt_dec b 0 then NInf else PInf
  | NInf, Fin b => if Rlt_dec b 0 then PInf else NInf
  | (PInf | NInf), (PInf | NInf) => NaN
  end.

Definition is_zero (x : pyfloat) : bool :=
  match x with
  | Fin r => if Req_dec_T r 0 then true else false
  | _ => false
  end.

(** [x <= y]; false as soon as one side is [nan]. *)
Definition le (x y : pyfloat) : bool :=
  match x, y with
  | NaN, _ | _, NaN => false
  | Fin a, Fin b => if Rle_dec a b then true else false
  | NInf, _ | _, PInf => true
  | PInf, _ | _, NInf => false
  end.

Definition inf : pyfloat := PInf.

Definition radians (x : pyfloat) : pyfloat := mul x (Fin (PI / 180)).
Definition degrees (x : pyfloat) : pyfloat := mul x (Fin (180 / PI)).

(** [atanh] on the open interval (-1, 1). *)
Definition arctanh (x : R) : R := ln ((1 + x) / (1 - x)) / 2.

Definition atan (x : pyfloat) : pyfloat :=
  match x with
  | Fin r => Fin (Ratan.atan r)
  | PInf => Fin (PI / 2)
  | NInf => Fin (- (PI / 2))
  | NaN => NaN
  end.

Definition asinh (x : pyfloat) : pyfloat :=
  match x with
  | Fin r => Fin (arcsinh r)
  | other => other
  end.

(** The largest finite double. *)
Definition dbl_max : R := (2 - / 2 ^ 52) * 2 ^ 1023.

Section Numeric.

(** [use_numpy]: which import branch of the module was taken. *)
Variable use_numpy : bool.

(** A domain error: numpy returns [v], [math] raises [e]. *)
Definition domain_error (e : exn) (v : pyfloat) : result pyfloat :=
  if use_numpy then Ok v else Raise e.

Definition div (x y : pyfloat) : result pyfloat :=
  if is_zero y then domain_error ZeroDivisionError (div_ieee x y)
  else Ok (div_ieee x y).

Definition sin (x : pyfloat) : result pyfloat :=
  match x with
  | Fin r => Ok (Fin (Rtrigo_def.sin r))
  | NaN => Ok NaN
  | PInf | NInf => domain_error ValueError NaN
  end.

(** At the poles [PI / 2] and [- (PI / 2)] the double nearest the pole lies
    just inside the interval and its tangent is a number of the order of
    1e16 with the sign of the latitude; what follows it here (a product
    with a positive number, then [atan]) takes it as the infinity of that
    sign does, and this is the value given.  At the other odd multiples of
    [PI / 2], outside the range of a latitude, the value is that of the
    library's [tan]. *)
Definition tan (x : pyfloat) : result pyfloat :=
  match x with
  | Fin r =>
      if Req_dec_T r (PI / 2) then Ok PInf
      else if Req_dec_T r (- (PI / 2)) then Ok NInf
      else Ok (Fin (Rtrigo1.tan r))
  | NaN => Ok NaN
  | PInf | NInf => domain_error ValueError NaN
  end.

(** [math.exp] raises [OverflowError] where the result exceeds the largest
    double; numpy returns [inf] there. *)
Definition exp (x : pyfloat) : result pyfloat :=
  match x with
  | Fin r =>
      if Rlt_dec dbl_max (Rtrigo_def.exp r)
      then domain_error OverflowError PInf
      else Ok (Fin (Rtrigo_def.exp r))
  | PInf => Ok PInf
  | NInf => Ok (Fin 0)
  | NaN => Ok NaN
  end.

Definition sqrt (x : pyfloat) : result pyfloat :=
  match x with
  | Fin r => if Rlt_dec r 0 then domain_error ValueError NaN
             else Ok (Fin (R_sqrt.sqrt r))
  | PInf => Ok PInf
  | NInf => domain_error ValueError NaN
  | NaN => Ok NaN
  end.

Definition atanh (x : pyfloat) : result pyfloat :=
  match x with
  | Fin r =>
      if Rlt_dec (Rabs r) 1 then Ok (Fin (arctanh r))
      else if Req_dec_T r 1 then domain_error ValueError PInf
      else if Req_dec_T r (-1) then domain_error ValueError NInf
      else domain_error ValueError NaN
  | NaN => Ok NaN
  | PInf | NInf => domain_error ValueError NaN
  end.

(** [x ** y] for a float exponent [y].  A negative base with a
    non-integer exponent gives a complex number in Python, which the
    following [math.sqrt] rejects with a [TypeError]; numpy gives [nan]. *)
Definition pow (x : pyfloat) (y : R) : result pyfloat :=
  if Req_dec_T y 0 then Ok (Fin 1) else
  let y_int := if Req_dec_T (frac_part y) 0 then true else false in
  let y_odd := andb y_int (Z.odd (Int_part y)) in
  match x with
  | NaN => Ok NaN
  | PInf => Ok (if Rlt_dec 0 y then PInf else Fin 0)
  | NInf => Ok (if Rlt_dec 0 y then (if y_odd then NInf else PInf) else Fin 0)
  | Fin r =>
      if Rlt_dec 0 r then Ok (Fin (Rpower r y))
      else if Req_dec_T r 0 then
        (if Rlt_dec 0 y then Ok (Fin 0)
         else domain_error ZeroDivisionError PInf)
      else if y_int then Ok (Fin (powerRZ r (Int_part y)))
      else domain_error TypeError NaN
  end.

End Numeric.

End Py.

Declare Scope py_scope.
Delimit Scope py_scope with py.
Bind Scope py_scope with pyfloat.
Notation "x + y" := (Py.add x y) : py_scope.
Notation "x - y" := (Py.sub x y) : py_scope.
Notation "x * y" := (Py.mul x y) : py_scope.
Notation "- x" := (Py.neg x) : py_scope.
Notation "x <=? y" := (Py.le x y) (at level 70, no associativity) : py_scope.

(** ** Ellipsoid and input sanitizer *)

(** The two parameters the conversions read from an [Ellipsoid]. *)
Record Ellipsoid : Set := mkEllipsoid {
  eccentricity : R;
  thirdflattening : R
}.

(** The ranges the data model gives for the two parameters. *)
Definition valid_ellipsoid (ell : Ellipsoid) : Prop :=
  0 <= eccentricity ell < 1 /\ -1 < thirdflattening ell < 1.

Definition sanitizer : Type :=
  pyfloat -> option Ellipsoid -> bool -> result (pyfloat * Ellipsoid).

Module utils.

Section Sanitize.

(** [Ellipsoid()], the reference ellipsoid used when the caller gives
    none. *)
Variable default_ellipsoid : Ellipsoid.

Definition resolve (ell : option Ellipsoid) : Ellipsoid :=
  match ell with
  | None => default_ellipsoid
  | Some e => e
  end.

(** Modelled from the spec: [utils.sanitize], which is imported by
    [latitude.py] and not part of it.  It converts the latitude to
    radians when [deg] is set, resolves the ellipsoid argument, and
    validates nothing. *)
Definition sanitize : sanitizer := fun lat ell deg =>
  Ok (if deg then Py.radians lat else lat, resolve ell).

End Sanitize.

End utils.

(** ** latitude.py *)

Section Latitude.

Variable use_numpy : bool.
Variable sanitize : sanitizer.

Local Open Scope py_monad_scope.
Local Open Scope py_scope.

Local Abbreviation ret := Ok.
Local Abbreviation inf := Py.inf.
Local Abbreviation abs := Py.abs.
Local Abbreviation radians := Py.radians.
Local Abbreviation degrees := Py.degrees.
Local Abbreviation atan := Py.atan.
Local Abbreviation asinh := Py.asinh.
Local Abbreviation exp := (Py.exp use_numpy).
Local Abbreviation sin := (Py.sin use_numpy).
Local Abbreviation tan := (Py.tan use_numpy).
Local Abbreviation sqrt := (Py.sqrt use_numpy).
Local Abbreviation atanh := (Py.atanh use_numpy).
Local Notation "x / y" := (Py.div use_numpy x y) : py_scope.
Local Notation "x ** y" := (Py.pow use_numpy x y)
  (at level 30, right associativity) : py_scope.

(** [numpy.vectorize(f)] at a scalar argument. *)
Definition vectorize {A B C D : Type} (f : A -> B -> C -> D) : A -> B -> C -> D :=
  fun a b c => f a b c.

Definition geodetic2geocentric
    (geodetic_lat : pyfloat) (ell : option Ellipsoid) (deg : bool)
    : result pyfloat :=
  '(geodetic_lat, ell) <- sanitize geodetic_lat ell deg ;;
  t <- tan geodetic_lat ;;
  let geocentric_lat := atan (Fin (1 - eccentricity ell ^ 2) * t) in
  ret (if deg then degrees geocentric_lat else geocentric_lat).

Definition geocentric2geodetic
    (geocentric_lat : pyfloat) (ell : option Ellipsoid) (deg : bool)
    : result pyfloat :=
  '(geocentric_lat, ell) <- sanitize geocentric_lat ell deg ;;
  t <- tan geocentric_lat ;;
  q <- t / Fin (1 - eccentricity ell ^ 2) ;;
  let geodetic_lat := atan q in
  ret (if deg then degrees geodetic_lat else geodetic_lat).

Definition geodetic2isometric_point
    (geodetic_lat : pyfloat) (ell : option Ellipsoid) (deg : bool)
    : result pyfloat :=
  '(geodetic_lat, ell) <- sanitize geodetic_lat ell deg ;;
  let e := Fin (eccentricity ell) in
  isometric_lat <-
    (if abs (geodetic_lat - Fin (PI / 2)) <=? Fin 1e-9 then ret inf
     else if abs (- geodetic_lat - Fin (PI / 2)) <=? Fin 1e-9 then ret (- inf)
     else
       t <- tan geodetic_lat ;;
       s <- sin geodetic_lat ;;
       a <- atanh (e * s) ;;
       ret (asinh t - e * a)) ;;
  ret (if deg then degrees isometric_lat else isometric_lat).

Definition geodetic2isometric
    (geodetic_lat : pyfloat) (ell : option Ellipsoid) (deg : bool)
    : result pyfloat :=
  if use_numpy then
    let fun_ := vectorize geodetic2isometric_point in
    fun_ geodetic_lat ell deg
  else geodetic2isometric_point geodetic_lat ell deg.

Definition conformal2geodetic
    (conformal_lat : pyfloat) (ell : option Ellipsoid) (deg : bool)
    : result pyfloat :=
  '(conformal_lat, ell) <- sanitize conformal_lat ell deg ;;
  let e := eccentricity ell in
  let f1 := (e ^ 2 / 2 + 5 * e ^ 4 / 24 + e ^ 6 / 12 + 13 * e ^ 8 / 360)%R in
  let f2 := (7 * e ^ 4 / 48 + 29 * e ^ 6 / 240 + 811 * e ^ 8 / 11520)%R in
  let f3 := (7 * e ^ 6 / 120 + 81 * e ^ 8 / 1120)%R in
  let f4 := (4279 * e ^ 8 / 161280)%R in
  s2 <- sin (Fin 2 * conformal_lat) ;;
  s4 <- sin (Fin 4 * conformal_lat) ;;
  s6 <- sin (Fin 6 * conformal_lat) ;;
  s8 <- sin (Fin 8 * conformal_lat) ;;
  let geodetic_lat :=
    conformal_lat
    + Fin f1 * s2
    + Fin f2 * s4
    + Fin f3 * s6
    + Fin f4 * s8 in
  ret (if deg then degrees geodetic_lat else geodetic_lat).

Definition isometric2geodetic
    (isometric_lat : pyfloat) (ell : option Ellipsoid) (deg : bool)
    : result pyfloat :=
  (* NOT sanitize for isometric2geo *)
  let isometric_lat := if deg then radians isometric_lat else isometric_lat in
  ex <- exp isometric_lat ;;
  let conformal_lat := Fin 2 * atan ex - Fin (PI / 2) in
  geodetic_lat <- conformal2geodetic conformal_lat ell false ;;
  ret (if deg then degrees geodetic_lat else geodetic_lat).

Definition geodetic2conformal_point
    (geodetic_lat : pyfloat) (ell : option Ellipsoid) (deg : bool)
    : result pyfloat :=
  '(geodetic_lat, ell) <- sanitize geodetic_lat ell deg ;;
  let e := eccentricity ell in
  (* sin(geodetic_lat): the source evaluates it once for each of f1..f4 *)
  s <- sin geodetic_lat ;;
  let f1 := Fin 1 - Fin e * s in
  let f2 := Fin 1 + Fin e * s in
  let f3 := Fin 1 - s in
  let f4 := Fin 1 + s in
  (* compute conformal latitudes with correction for points at +90 *)
  conformal_lat <-
    try_except_ZeroDivisionError
      (q43 <- f4 / f3 ;;
       q12 <- f1 / f2 ;;
       p <- q12 ** e ;;
       r <- sqrt (q43 * p) ;;
       ret (Fin 2 * atan r - Fin (PI / 2)))
      (ret (Fin (PI / 2))) ;;
  ret (if deg then degrees conformal_lat else conformal_lat).

Definition geodetic2conformal
    (geodetic_lat : pyfloat) (ell : option Ellipsoid) (deg : bool)
    : result pyfloat :=
  if use_numpy then
    let fun_ := vectorize geodetic2conformal_point in
    fun_ geodetic_lat ell deg
  else geodetic2conformal_point geodetic_lat ell deg.

(* %% rectifying *)
Definition geodetic2rectifying
    (geodetic_lat : pyfloat) (ell : option Ellipsoid) (deg : bool)
    : result pyfloat :=
  '(geodetic_lat, ell) <- sanitize geodetic_lat ell deg ;;
  let n := thirdflattening ell in
  let f1 := (3 * n / 2 - 9 * n ^ 3 / 16)%R in
  let f2 := (15 * n ^ 2 / 16 - 15 * n ^ 4 / 32)%R in
  let f3 := (35 * n ^ 3 / 48)%R in
  let f4 := (315 * n ^ 4 / 512)%R in
  s2 <- sin (Fin 2 * geodetic_lat) ;;
  s4 <- sin (Fin 4 * geodetic_lat) ;;
  s6 <- sin (Fin 6 * geodetic_lat) ;;
  s8 <- sin (Fin 8 * geodetic_lat) ;;
  let rectifying_lat :=
    geodetic_lat
    - Fin f1 * s2
    + Fin f2 * s4
    - Fin f3 * s6
    + Fin f4 * s8 in
  ret (if deg then degrees rectifying_lat else rectifying_lat).

Definition rectifying2geodetic
    (rectifying_lat : pyfloat) (ell : option Ellipsoid) (deg : bool)
    : result pyfloat :=
  '(rectifying_lat, ell) <- sanitize rectifying_lat ell deg ;;
  let n := thirdflattening ell in
  let f1 := (3 * n / 2 - 27 * n ^ 3 / 32)%R in
  let f2 := (21 * n ^ 2 / 16 - 55 * n ^ 4 / 32)%R in
  let f3 := (151 * n ^ 3 / 96)%R in
  let f4 := (1097 * n ^ 4 / 512)%R in
  s2 <- sin (Fin 2 * rectifying_lat) ;;
  s4 <- sin (Fin 4 * rectifying_lat) ;;
  s6 <- sin (Fin 6 * rectifying_lat) ;;
  s8 <- sin (Fin 8 * rectifying_lat) ;;
  let geodetic_lat :=
    rectifying_lat
    + Fin f1 * s2
    + Fin f2 * s4
    + Fin f3 * s6
    + Fin f4 * s8 in
  ret (if deg then degrees geodetic_lat else geodetic_lat).

(* %% authalic *)
Definition geodetic2authalic
    (geodetic_lat : pyfloat) (ell : option Ellipsoid) (deg : bool)
    : result pyfloat :=
  '(geodetic_lat, ell) <- sanitize geodetic_lat ell deg ;;
  let e := eccentricity ell in
  let f1 := (e ^ 2 / 3 + 31 * e ^ 4 / 180 + 59 * e ^ 6 / 560)%R in
  let f2 := (17 * e ^ 4 / 360 + 61 * e ^ 6 / 1260)%R in
  let f3 := (383 * e ^ 6 / 45360)%R in
  s2 <- sin (Fin 2 * geodetic_lat) ;;
  s4 <- sin (Fin 4 * geodetic_lat) ;;
  s6 <- sin (Fin 6 * geodetic_lat) ;;
  let authalic_lat :=
    geodetic_lat - Fin f1 * s2 + Fin f2 * s4 - Fin f3 * s6 in
  ret (if deg then degrees authalic_lat else authalic_lat).

Definition authalic2geodetic
    (authalic_lat : pyfloat) (ell : option Ellipsoid) (deg : bool)
    : result pyfloat :=
  '(authalic_lat, ell) <- sanitize authalic_lat ell deg ;;
  let e := eccentricity ell in
  let f1 := (e ^ 2 / 3 + 31 * e ^ 4 / 180 + 517 * e ^ 6 / 5040)%R in
  let f2 := (23 * e ^ 4 / 360 + 251 * e ^ 6 / 3780)%R in
  let f3 := (761 * e ^ 6 / 45360)%R in
  s2 <- sin (Fin 2 * authalic_lat) ;;
  s4 <- sin (Fin 4 * authalic_lat) ;;
  s6 <- sin (Fin 6 * authalic_lat) ;;
  let geodetic_lat :=
    authalic_lat + Fin f1 * s2 + Fin f2 * s4 + Fin f3 * s6 in
  ret (if deg then degrees geodetic_lat else geodetic_lat).

(* %% parametric *)
Definition geodetic2parametric
    (geodetic_lat : pyfloat) (ell : option Ellipsoid) (deg : bool)
    : result pyfloat :=
  '(geodetic_lat, ell) <- sanitize geodetic_lat ell deg ;;
  k <- sqrt (Fin (1 - eccentricity ell ^ 2)) ;;
  t <- tan geodetic_lat ;;
  let parametric_lat := atan (k * t) in
  ret (if deg then degrees parametric_lat else parametric_lat).

Definition parametric2geodetic
    (parametric_lat : pyfloat) (ell : option Ellipsoid) (deg : bool)
    : result pyfloat :=
  '(parametric_lat, ell) <- sanitize parametric_lat ell deg ;;
  t <- tan parametric_lat ;;
  k <- sqrt (Fin (1 - eccentricity ell ^ 2)) ;;
  q <- t / k ;;
  let geodetic_lat := atan q in
  ret (if deg then degrees geodetic_lat else geodetic_lat).

End Latitude.

Definition conversion : Type :=
  bool -> sanitizer -> pyfloat -> option Ellipsoid -> bool -> result pyfloat.

(** [__all__]: the twelve exported conversions. *)
Definition all_conversions : list conversion :=
  [ geodetic2isometric;
    isometric2geodetic;
    geodetic2rectifying;
    rectifying2geodetic;
    geodetic2conformal;
    conformal2geodetic;
    geodetic2parametric;
    parametric2geodetic;
    geodetic2geocentric;
    geocentric2geodetic;
    geodetic2authalic;
    authalic2geodetic ].

(** ** The formulas of the specification

    Written from the specification's text, over the reals, to be compared
    with what the functions above return. *)

Module Spec.

Definition conformal_inverse (e phi : R) : R :=
  let f1 := e ^ 2 / 2 + 5 * e ^ 4 / 24 + e ^ 6 / 12 + 13 * e ^ 8 / 360 in
  let f2 := 7 * e ^ 4 / 48 + 29 * e ^ 6 / 240 + 811 * e ^ 8 / 11520 in
  let f3 := 7 * e ^ 6 / 120 + 81 * e ^ 8 / 1120 in
  let f4 := 4279 * e ^ 8 / 161280 in
  phi + f1 * sin (2 * phi) + f2 * sin (4 * phi) + f3 * sin (6 * phi)
  + f4 * sin (8 * phi).

Definition rectifying_forward (n phi : R) : R :=
  let f1 := 3 * n / 2 - 9 * n ^ 3 / 16 in
  let f2 := 15 * n ^ 2 / 16 - 15 * n ^ 4 / 32 in
  let f3 := 35 * n ^ 3 / 48 in
  let f4 := 315 * n ^ 4 / 512 in
  phi - f1 * sin (2 * phi) + f2 * sin (4 * phi) - f3 * sin (6 * phi)
  + f4 * sin (8 * phi).

Definition rectifying_inverse (n phi : R) : R :=
  let f1 := 3 * n / 2 - 27 * n ^ 3 / 32 in
  let f2 := 21 * n ^ 2 / 16 - 55 * n ^ 4 / 32 in
  let f3 := 151 * n ^ 3 / 96 in
  let f4 := 1097 * n ^ 4 / 512 in
  phi + f1 * sin (2 * phi) + f2 * sin (4 * phi) + f3 * sin (6 * phi)
  + f4 * sin (8 * phi).

Definition authalic_forward (e phi : R) : R :=
  let f1 := e ^ 2 / 3 + 31 * e ^ 4 / 180 + 59 * e ^ 6 / 560 in
  let f2 := 17 * e ^ 4 / 360 + 61 * e ^ 6 / 1260 in
  let f3 := 383 * e ^ 6 / 45360 in
  phi - f1 * sin (2 * phi) + f2 * sin (4 * phi) - f3 * sin (6 * phi).

Definition authalic_inverse (e phi : R) : R :=
  let f1 := e ^ 2 / 3 + 31 * e ^ 4 / 180 + 517 * e ^ 6 / 5040 in
  let f2 := 23 * e ^ 4 / 360 + 251 * e ^ 6 / 3780 in
  let f3 := 761 * e ^ 6 / 45360 in
  phi + f1 * sin (2 * phi) + f2 * sin (4 * phi) + f3 * sin (6 * phi).

Definition isometric_forward (e phi : R) : R :=
  arcsinh (tan phi) - e * Py.arctanh (e * sin phi).

Definition conformal_forward (e phi : R) : R :=
  let f1 := 1 - e * sin phi in
  let f2 := 1 + e * sin phi in
  let f3 := 1 - sin phi in
  let f4 := 1 + sin phi in
  2 * atan (sqrt ((f4 / f3) * Rpower (f1 / f2) e)) - PI / 2.

Definition isometric_to_conformal (psi : R) : R :=
  2 * atan (exp psi) - PI / 2.

End Spec.

(** ** Notions used in the statements *)

(** A call in degrees, in terms of the call [f] in radians. *)
Definition in_degrees (f : pyfloat -> result pyfloat) (x : pyfloat)
    : result pyfloat :=
  bind (f (Py.radians x)) (fun v => Ok (Py.degrees v)).

(** [f] is odd at [x]: both calls return, and the results are opposite. *)
Definition odd_at (f : pyfloat -> result pyfloat) (x : pyfloat) : Prop :=
  exists v, f x = Ok v /\ f (Py.neg x) = Ok (Py.neg v).

(** A float that is a real number. *)
Definition finite (x : pyfloat) : Prop := exists r, x = Fin r.

(** The conformal latitude that [isometric2geodetic] computes. *)
Definition conformal_of_isometric (use_numpy : bool) (x : pyfloat)
    : result pyfloat :=
  bind (Py.exp use_numpy x)
       (fun ex => Ok (Fin 2 * Py.atan ex - Fin (PI / 2))%py).

(** [atan (k * tan r)], with the poles [PI / 2] and [- (PI / 2)] sent to
    themselves: what the four arctangent conversions return for a positive
    factor [k]. *)
Definition atan_scaled_tan (k r : R) : R :=
  if Req_dec_T r (PI / 2) then PI / 2
  else if Req_dec_T r (- (PI / 2)) then - (PI / 2)
  else atan (k * tan r).

(** The argument of the arctangent in the forward conformal formula, as
    a function of [s = sin phi]. *)
Definition conformal_arg (e s : R) : R :=
  sqrt (((1 + s) / (1 - s)) * Rpower ((1 - e * s) / (1 + e * s)) e).

(** An ellipsoid with the eccentricity the specification quotes for WGS84
    and the third flattening that goes with it; used in the examples. *)
Definition wgs84_like : Ellipsoid :=
  {| eccentricity := 0.0818191908426; thirdflattening := 1 / 595.514447126 |}.

(** A sanitizer that refuses input in degrees: it tells the functions that
    sanitize their input from the one that does not. *)
Definition radians_only_sanitize : sanitizer := fun lat ell deg =>
  if deg then Raise ValueError else utils.sanitize wgs84_like lat ell deg.

(** ** Facts about the real functions involved *)

Section RealFacts.

Lemma sinh_opp (x : R) : sinh (- x) = - sinh x.
Proof. unfold sinh. rewrite Ropp_involutive. lra. Qed.

Lemma arcsinh_opp (x : R) : arcsinh (- x) = - arcsinh x.
Proof.
  rewrite <- (sinh_arcsinh x) at 1.
  rewrite <- sinh_opp. apply arcsinh_sinh.
Qed.

Lemma arctanh_0 : Py.arctanh 0 = 0.
Proof.
  unfold Py.arctanh.
  replace ((1 + 0) / (1 - 0)) with 1 by lra.
  rewrite ln_1. lra.
Qed.

Lemma arctanh_opp (x : R) : -1 < x < 1 -> Py.arctanh (- x) = - Py.arctanh x.
Proof.
  intros Hx. unfold Py.arctanh.
  assert (Hpos : 0 < (1 + x) / (1 - x)).
  { apply Rdiv_lt_0_compat; lra. }
  replace ((1 + - x) / (1 - - x)) with (/ ((1 + x) / (1 - x))).
  - rewrite ln_Rinv by exact Hpos. lra.
  - field. lra.
Qed.

Lemma sin_multiple_PI (k : Z) : sin (IZR k * PI) = 0.
Proof. apply sin_eq_0_1. exists k. reflexivity. Qed.

Lemma atan_le (x y : R) : x <= y -> atan x <= atan y.
Proof.
  intros [Hlt | Heq].
  - left. apply atan_increasing. exact Hlt.
  - right. now rewrite Heq.
Qed.

Lemma tolerance_small : 1e-9 < PI / 2.
Proof. generalize PI2_3_2. lra. Qed.

Lemma deg_rad_pos : 0 < PI / 180 /\ 0 < 180 / PI.
Proof.
  generalize PI_RGT_0. intros Hpi. split.
  - lra.
  - apply Rdiv_lt_0_compat; lra.
Qed.

Lemma deg_rad_inverse (x : R) : x * (PI / 180) * (180 / PI) = x.
Proof. field. apply PI_neq0. Qed.

Lemma sqrt_between (x : R) : 0 < x < 1 -> x <= sqrt x /\ 0 < sqrt x < 1.
Proof.
  intros [H0 H1].
  assert (Hs : 0 < sqrt x) by (apply sqrt_lt_R0; exact H0).
  assert (Hs1 : sqrt x < 1).
  { rewrite <- sqrt_1. apply sqrt_lt_1; lra. }
  assert (Hsq : sqrt x * sqrt x = x) by (apply sqrt_sqrt; lra).
  repeat split; try assumption. nra.
Qed.

(** The isometric-to-conformal map is odd. *)
Lemma isometric_to_conformal_opp (psi : R) :
  Spec.isometric_to_conformal (- psi) = - Spec.isometric_to_conformal psi.
Proof.
  unfold Spec.isometric_to_conformal.
  rewrite exp_Ropp, atan_inv by apply exp_pos. lra.
Qed.

Lemma Rpower_inv_base (x y : R) : 0 < x -> Rpower (/ x) y = / Rpower x y.
Proof.
  intros Hx. unfold Rpower.
  rewrite ln_Rinv by exact Hx.
  replace (y * - ln x) with (- (y * ln x)) by ring.
  apply exp_Ropp.
Qed.

Lemma conformal_arg_opp (e s : R) :
  0 <= e < 1 -> -1 < s < 1 ->
  0 < conformal_arg e s /\ conformal_arg e (- s) = / conformal_arg e s.
Proof.
  intros He Hs. unfold conformal_arg.
  assert (Hes : -1 < e * s < 1) by nra.
  assert (Ha : 0 < (1 + s) / (1 - s)) by (apply Rdiv_lt_0_compat; lra).
  assert (Hb : 0 < (1 - e * s) / (1 + e * s)) by (apply Rdiv_lt_0_compat; lra).
  assert (Hp : 0 < Rpower ((1 - e * s) / (1 + e * s)) e) by apply exp_pos.
  split.
  - apply sqrt_lt_R0. apply Rmult_lt_0_compat; assumption.
  - rewrite <- sqrt_inv. f_equal.
    replace ((1 + - s) / (1 - - s)) with (/ ((1 + s) / (1 - s)))
      by (field; lra).
    replace ((1 - e * - s) / (1 + e * - s))
      with (/ ((1 - e * s) / (1 + e * s))) by (field; lra).
    rewrite Rpower_inv_base by exact Hb.
    rewrite Rinv_mult. reflexivity.
Qed.

End RealFacts.

(** ** The range of a double *)

Lemma dbl_max_bounds : 2 ^ 1023 <= Py.dbl_max < 2 ^ 1024.
Proof.
unfold Py.dbl_max.
change (2 ^ 1024) with (2 * 2 ^ 1023).
assert (Hp : 0 < 2 ^ 1023) by (apply pow_lt; lra).
assert (Hq : 1 <= 2 ^ 52) by (apply pow_R1_Rle; lra).
assert (Hi : 0 < / 2 ^ 52 <= 1).
{ split; [apply Rinv_0_lt_compat; lra |].
  replace 1 with (/ 1) at 1 by apply Rinv_1.
  apply Rinv_le_contravar; lra. }
set (p := 2 ^ 1023) in *. set (q := / 2 ^ 52) in *. nra.
Qed.

Lemma small_power_in_range (n : nat) : (n <= 1023)%nat -> 2 ^ n <= Py.dbl_max.
Proof.
intros Hn. apply Rle_trans with (2 ^ 1023); [| apply dbl_max_bounds].
apply Rle_pow; [lra | exact Hn].
Qed.

Lemma exp_1_in_range : exp 1 <= Py.dbl_max.
Proof.
apply Rle_trans with (2 ^ 2); [| apply small_power_in_range; repeat constructor].
generalize exp_le_3. lra.
Qed.

Lemma exp_nonpositive_in_range (r : R) : r <= 0 -> exp r <= Py.dbl_max.
Proof.
intros Hr. apply Rle_trans with (2 ^ 0); [| apply small_power_in_range, Nat.le_0_l].
simpl. rewrite <- exp_0.
destruct Hr as [Hr | ->]; [left; now apply exp_increasing | right; reflexivity].
Qed.

Lemma power_of_two_le_exp (n : nat) : 2 ^ n <= exp (INR n).
Proof.
induction n as [| n IH].
- simpl. rewrite exp_0. lra.
- rewrite S_INR, exp_plus. simpl.
  generalize (exp_ineq1_le 1) (exp_pos (INR n)) (pow_lt 2 n). nra.
Qed.

(** [math.exp(1100.0)] overflows. *)
Lemma exp_1100_overflows : Py.dbl_max < exp 1100.
Proof.
apply Rlt_le_trans with (2 ^ 1024); [apply dbl_max_bounds |].
apply Rle_trans with (exp (INR 1024)); [apply power_of_two_le_exp |].
left. apply exp_increasing. rewrite INR_IZR_INZ. simpl. lra.
Qed.

(** ** Evaluating the float operations *)

Section FloatFacts.

Variable use_numpy : bool.

Lemma le_Fin_true (a b : R) : a <= b -> Py.le (Fin a) (Fin b) = true.
Proof. intros H. simpl. destruct (Rle_dec a b); [reflexivity | contradiction]. Qed.

Lemma le_Fin_false (a b : R) : b < a -> Py.le (Fin a) (Fin b) = false.
Proof. intros H. simpl. destruct (Rle_dec a b); [lra | reflexivity]. Qed.

Lemma inf_of_sign_pos (s : R) : 0 < s -> Py.inf_of_sign s = PInf.
Proof. intros H. unfold Py.inf_of_sign. destruct (Rlt_dec 0 s); [reflexivity | contradiction]. Qed.

Lemma inf_of_sign_neg (s : R) : s < 0 -> Py.inf_of_sign s = NInf.
Proof.
  intros H. unfold Py.inf_of_sign.
  destruct (Rlt_dec 0 s); [lra |].
  destruct (Rlt_dec s 0); [reflexivity | contradiction].
Qed.

Lemma neg_involutive (x : pyfloat) : Py.neg (Py.neg x) = x.
Proof. destruct x; simpl; try reflexivity. now rewrite Ropp_involutive. Qed.

Lemma mul_pos_neg (x : pyfloat) (k : R) :
  0 < k -> Py.mul (Py.neg x) (Fin k) = Py.neg (Py.mul x (Fin k)).
Proof.
  intros Hk. destruct x; simpl; try reflexivity.
  - f_equal. ring.
  - rewrite (inf_of_sign_pos k), (inf_of_sign_neg (- k)) by lra. reflexivity.
  - rewrite (inf_of_sign_pos k), (inf_of_sign_neg (- k)) by lra. reflexivity.
Qed.

Lemma degrees_neg (x : pyfloat) : Py.degrees (Py.neg x) = Py.neg (Py.degrees x).
Proof. apply mul_pos_neg, deg_rad_pos. Qed.

Lemma radians_neg (x : pyfloat) : Py.radians (Py.neg x) = Py.neg (Py.radians x).
Proof. apply mul_pos_neg, deg_rad_pos. Qed.

Lemma degrees_inf : Py.degrees PInf = PInf /\ Py.degrees NInf = NInf.
Proof.
  destruct deg_rad_pos as [_ H]. unfold Py.degrees. simpl.
  rewrite (inf_of_sign_pos (180 / PI)), (inf_of_sign_neg (- (180 / PI))) by lra.
  split; reflexivity.
Qed.

Lemma radians_inf : Py.radians PInf = PInf /\ Py.radians NInf = NInf.
Proof.
  destruct deg_rad_pos as [H _]. unfold Py.radians. simpl.
  rewrite (inf_of_sign_pos (PI / 180)), (inf_of_sign_neg (- (PI / 180))) by lra.
  split; reflexivity.
Qed.

Lemma div_Fin (a b : R) :
  b <> 0 -> Py.div use_numpy (Fin a) (Fin b) = Ok (Fin (a / b)).
Proof.
  intros Hb. unfold Py.div. simpl.
  destruct (Req_dec_T b 0); [contradiction | reflexivity].
Qed.

Lemma sqrt_Fin (r : R) :
  0 <= r -> Py.sqrt use_numpy (Fin r) = Ok (Fin (sqrt r)).
Proof.
  intros Hr. simpl. destruct (Rlt_dec r 0); [lra | reflexivity].
Qed.

Lemma atanh_Fin (r : R) :
  -1 < r < 1 -> Py.atanh use_numpy (Fin r) = Ok (Fin (Py.arctanh r)).
Proof.
  intros Hr. simpl.
  destruct (Rlt_dec (Rabs r) 1) as [_ | Hn]; [reflexivity |].
  exfalso. apply Hn. apply Rabs_def1; lra.
Qed.

Lemma pow_Fin (r y : R) :
  0 < r -> Py.pow use_numpy (Fin r) y = Ok (Fin (Rpower r y)).
Proof.
  intros Hr. unfold Py.pow.
  destruct (Req_dec_T y 0) as [-> | _].
  - rewrite Rpower_O by exact Hr. reflexivity.
  - destruct (Rlt_dec 0 r); [reflexivity | contradiction].
Qed.

Lemma tan_Fin (r : R) :
  r <> PI / 2 -> r <> - (PI / 2) ->
  Py.tan use_numpy (Fin r) = Ok (Fin (tan r)).
Proof.
intros Hn Hs. unfold Py.tan.
destruct (Req_dec_T r (PI / 2)); [contradiction |].
destruct (Req_dec_T r (- (PI / 2))); [contradiction | reflexivity].
Qed.

Lemma tan_pole :
  Py.tan use_numpy (Fin (PI / 2)) = Ok PInf
  /\ Py.tan use_numpy (Fin (- (PI / 2))) = Ok NInf.
Proof.
generalize PI_RGT_0; intros Hpi. unfold Py.tan. split.
- destruct (Req_dec_T (PI / 2) (PI / 2)) as [_ | Hne];
    [reflexivity | exfalso; apply Hne; reflexivity].
- destruct (Req_dec_T (- (PI / 2)) (PI / 2)); [lra |].
  destruct (Req_dec_T (- (PI / 2)) (- (PI / 2))) as [_ | Hne];
    [reflexivity | exfalso; apply Hne; reflexivity].
Qed.

Lemma exp_Fin (r : R) :
  exp r <= Py.dbl_max -> Py.exp use_numpy (Fin r) = Ok (Fin (exp r)).
Proof.
intros Hr. unfold Py.exp.
destruct (Rlt_dec Py.dbl_max (exp r)); [lra | reflexivity].
Qed.

Lemma exp_overflow (r : R) :
  Py.dbl_max < exp r ->
  Py.exp use_numpy (Fin r) = if use_numpy then Ok PInf else Raise OverflowError.
Proof.
intros Hr. unfold Py.exp.
destruct (Rlt_dec Py.dbl_max (exp r)); [reflexivity | contradiction].
Qed.

End FloatFacts.

(** ** Running the conversions on a finite latitude in radians *)

Section Runs.

Variable use_numpy : bool.
Variable dflt : Ellipsoid.
Variable ell : option Ellipsoid.

Let san := utils.sanitize dflt.
Let e := eccentricity (utils.resolve dflt ell).

Lemma geodetic2isometric_unfold (x : pyfloat) (deg : bool) :
  geodetic2isometric use_numpy san x ell deg
  = geodetic2isometric_point use_numpy san x ell deg.
Proof. unfold geodetic2isometric, vectorize. now destruct use_numpy. Qed.

Lemma geodetic2conformal_unfold (x : pyfloat) (deg : bool) :
  geodetic2conformal use_numpy san x ell deg
  = geodetic2conformal_point use_numpy san x ell deg.
Proof. unfold geodetic2conformal, vectorize. now destruct use_numpy. Qed.

Lemma isometric_north_pole (phi : R) :
  Rabs (phi - PI / 2) <= 1e-9 ->
  geodetic2isometric_point use_numpy san (Fin phi) ell false = Ok PInf.
Proof.
  intros H. unfold geodetic2isometric_point, san, utils.sanitize. cbn -[Py.le].
  rewrite le_Fin_true; [reflexivity |].
  replace (phi + - (PI / 2)) with (phi - PI / 2) by ring. exact H.
Qed.

Lemma isometric_south_pole (phi : R) :
  Rabs (phi + PI / 2) <= 1e-9 ->
  geodetic2isometric_point use_numpy san (Fin phi) ell false = Ok NInf.
Proof.
  intros H. unfold geodetic2isometric_point, san, utils.sanitize. cbn -[Py.le].
  generalize tolerance_small; intros Htol.
  rewrite le_Fin_false.
  - rewrite le_Fin_true; [reflexivity |].
    replace (- phi + - (PI / 2)) with (- (phi + PI / 2)) by ring.
    rewrite Rabs_Ropp. exact H.
  - replace (phi + - (PI / 2)) with (phi - PI / 2) by ring.
    unfold Rabs in *.
    destruct (Rcase_abs (phi + PI / 2)); destruct (Rcase_abs (phi - PI / 2)); lra.
Qed.

Lemma isometric_regular (phi : R) :
  0 <= e < 1 ->
  1e-9 < Rabs (phi - PI / 2) ->
  1e-9 < Rabs (phi + PI / 2) ->
  geodetic2isometric_point use_numpy san (Fin phi) ell false
  = Ok (Fin (Spec.isometric_forward e phi)).
Proof.
  intros He Hn Hs.
  assert (Hnp : phi <> PI / 2).
  { intros ->. unfold Rminus in Hn. rewrite Rplus_opp_r, Rabs_R0 in Hn. lra. }
  assert (Hsp : phi <> - (PI / 2)).
  { intros ->. rewrite Rplus_opp_l, Rabs_R0 in Hs. lra. }
  unfold geodetic2isometric_point, san, utils.sanitize.
  cbn -[Py.le Py.atanh Py.tan].
  rewrite le_Fin_false
    by (replace (phi + - (PI / 2)) with (phi - PI / 2) by ring; exact Hn).
  rewrite le_Fin_false.
  - rewrite tan_Fin by assumption. cbn -[Py.atanh].
    rewrite atanh_Fin; [reflexivity |].
    generalize (SIN_bound phi). fold e. nra.
  - replace (- phi + - (PI / 2)) with (- (phi + PI / 2)) by ring.
    rewrite Rabs_Ropp. exact Hs.
Qed.

Lemma conformal_regular (phi : R) :
  0 <= e < 1 ->
  sin phi <> 1 ->
  geodetic2conformal_point use_numpy san (Fin phi) ell false
  = Ok (Fin (Spec.conformal_forward e phi)).
Proof.
  intros He Hs.
  generalize (SIN_bound phi); intros Hb.
  assert (Hes : -1 < e * sin phi < 1) by nra.
  unfold geodetic2conformal_point, san, utils.sanitize.
  cbn -[Py.div Py.pow Py.sqrt]. fold e.
  rewrite div_Fin by lra. cbn -[Py.div Py.pow Py.sqrt].
  rewrite div_Fin by lra. cbn -[Py.div Py.pow Py.sqrt].
  rewrite pow_Fin by (apply Rdiv_lt_0_compat; lra).
  cbn -[Py.div Py.pow Py.sqrt].
  rewrite sqrt_Fin.
  - reflexivity.
  - apply Rmult_le_pos.
    + unfold Rdiv. apply Rmult_le_pos; [lra |].
      apply Rlt_le, Rinv_0_lt_compat. lra.
    + apply Rlt_le, exp_pos.
Qed.

Lemma conformal_pole (phi : R) :
  0 <= e < 1 ->
  sin phi = 1 ->
  geodetic2conformal_point use_numpy san (Fin phi) ell false
  = Ok (Fin (PI / 2)).
Proof.
  intros He Hs.
  unfold geodetic2conformal_point, san, utils.sanitize.
  cbn -[Py.div Py.pow Py.sqrt]. fold e. rewrite Hs.
  unfold Py.div at 1. cbn -[Py.div Py.pow Py.sqrt].
  destruct (Req_dec_T (1 + - (1)) 0) as [_ | Hne]; [| exfalso; apply Hne; ring].
  unfold Py.domain_error. destruct use_numpy.
  - cbn -[Py.div Py.pow Py.sqrt].
    rewrite inf_of_sign_pos by lra.
    rewrite div_Fin by lra. cbn -[Py.div Py.pow Py.sqrt].
    rewrite pow_Fin by (apply Rdiv_lt_0_compat; lra).
    cbn. rewrite inf_of_sign_pos by apply exp_pos.
    cbn. f_equal. f_equal. field.
  - reflexivity.
Qed.

End Runs.

(** ** Degrees and radians

    With the sanitizer of [utils], a call in degrees is the call in radians
    on the converted input, converted back. *)

Ltac case_results :=
  repeat match goal with
    | |- context [bind ?m _] => destruct m; cbn [bind]
    | |- context [try_except_ZeroDivisionError ?m _] =>
        destruct m as [? | []]; cbn [try_except_ZeroDivisionError bind]
    | |- context [if ?b then _ else _] => destruct b; cbn [bind]
    end.

Section DegreesRadians.

Variable use_numpy : bool.
Variable dflt : Ellipsoid.
Variable ell : option Ellipsoid.

Let san := utils.sanitize dflt.

Ltac deg_rad f :=
  intros x; unfold in_degrees, f, san, utils.sanitize; cbn [bind];
  case_results; reflexivity.

Lemma geodetic2geocentric_deg : forall x,
  geodetic2geocentric use_numpy san x ell true
  = in_degrees (fun y => geodetic2geocentric use_numpy san y ell false) x.
Proof. deg_rad geodetic2geocentric. Qed.

Lemma geocentric2geodetic_deg : forall x,
  geocentric2geodetic use_numpy san x ell true
  = in_degrees (fun y => geocentric2geodetic use_numpy san y ell false) x.
Proof. deg_rad geocentric2geodetic. Qed.

Lemma geodetic2isometric_point_deg : forall x,
  geodetic2isometric_point use_numpy san x ell true
  = in_degrees (fun y => geodetic2isometric_point use_numpy san y ell false) x.
Proof. deg_rad geodetic2isometric_point. Qed.

Lemma conformal2geodetic_deg : forall x,
  conformal2geodetic use_numpy san x ell true
  = in_degrees (fun y => conformal2geodetic use_numpy san y ell false) x.
Proof. deg_rad conformal2geodetic. Qed.

Lemma isometric2geodetic_deg : forall x,
  isometric2geodetic use_numpy san x ell true
  = in_degrees (fun y => isometric2geodetic use_numpy san y ell false) x.
Proof. deg_rad isometric2geodetic. Qed.

Lemma geodetic2conformal_point_deg : forall x,
  geodetic2conformal_point use_numpy san x ell true
  = in_degrees (fun y => geodetic2conformal_point use_numpy san y ell false) x.
Proof. deg_rad geodetic2conformal_point. Qed.

Lemma geodetic2rectifying_deg : forall x,
  geodetic2rectifying use_numpy san x ell true
  = in_degrees (fun y => geodetic2rectifying use_numpy san y ell false) x.
Proof. deg_rad geodetic2rectifying. Qed.

Lemma rectifying2geodetic_deg : forall x,
  rectifying2geodetic use_numpy san x ell true
  = in_degrees (fun y => rectifying2geodetic use_numpy san y ell false) x.
Proof. deg_rad rectifying2geodetic. Qed.

Lemma geodetic2authalic_deg : forall x,
  geodetic2authalic use_numpy san x ell true
  = in_degrees (fun y => geodetic2authalic use_numpy san y ell false) x.
Proof. deg_rad geodetic2authalic. Qed.

Lemma authalic2geodetic_deg : forall x,
  authalic2geodetic use_numpy san x ell true
  = in_degrees (fun y => authalic2geodetic use_numpy san y ell false) x.
Proof. deg_rad authalic2geodetic. Qed.

Lemma geodetic2parametric_deg : forall x,
  geodetic2parametric use_numpy san x ell true
  = in_degrees (fun y => geodetic2parametric use_numpy san y ell false) x.
Proof. deg_rad geodetic2parametric. Qed.

Lemma parametric2geodetic_deg : forall x,
  parametric2geodetic use_numpy san x ell true
  = in_degrees (fun y => parametric2geodetic use_numpy san y ell false) x.
Proof. deg_rad parametric2geodetic. Qed.

End DegreesRadians.

(** ** Oddness *)

Lemma odd_at_in_degrees (f : pyfloat -> result pyfloat) (x : pyfloat) :
  odd_at f (Py.radians x) -> odd_at (in_degrees f) x.
Proof.
intros [v [Hx Hneg]]. exists (Py.degrees v). unfold in_degrees. split.
- rewrite Hx. reflexivity.
- rewrite radians_neg, Hneg. cbn [bind]. now rewrite degrees_neg.
Qed.

Lemma odd_at_ext (f g : pyfloat -> result pyfloat) (x : pyfloat) :
  (forall y, g y = f y) -> odd_at f x -> odd_at g x.
Proof.
intros Hext [v [Hx Hneg]]. exists v. now rewrite !Hext.
Qed.

Lemma odd_both_units (f : pyfloat -> bool -> result pyfloat) (dom : pyfloat -> Prop) :
  (forall x, dom x -> dom (Py.radians x)) ->
  (forall x, f x true = in_degrees (fun y => f y false) x) ->
  (forall x, dom x -> odd_at (fun y => f y false) x) ->
  forall (deg : bool) (x : pyfloat), dom x -> odd_at (fun y => f y deg) x.
Proof.
intros Hdom Hdeg Hrad [] x Hx.
- apply odd_at_ext with (f := in_degrees (fun y => f y false)).
  + exact Hdeg.
  + apply odd_at_in_degrees, Hrad, Hdom, Hx.
- apply Hrad, Hx.
Qed.

Lemma finite_radians (x : pyfloat) : finite x -> finite (Py.radians x).
Proof. intros [r ->]. eexists. reflexivity. Qed.

Ltac sin_odd :=
  repeat match goal with
    | |- context [sin (?k * - ?x)] =>
        replace (k * - x) with (- (k * x)) by ring; rewrite (sin_neg (k * x))
    end.

(** ** The four arctangent conversions *)

Section ScaledTangent.

Variable k : R.

Lemma atan_scaled_tan_north : atan_scaled_tan k (PI / 2) = PI / 2.
Proof.
unfold atan_scaled_tan.
destruct (Req_dec_T (PI / 2) (PI / 2)) as [_ | Hne];
  [reflexivity | exfalso; apply Hne; reflexivity].
Qed.

Lemma atan_scaled_tan_south : atan_scaled_tan k (- (PI / 2)) = - (PI / 2).
Proof.
generalize PI_RGT_0; intros Hpi. unfold atan_scaled_tan.
destruct (Req_dec_T (- (PI / 2)) (PI / 2)); [lra |].
destruct (Req_dec_T (- (PI / 2)) (- (PI / 2))) as [_ | Hne];
  [reflexivity | exfalso; apply Hne; reflexivity].
Qed.

Lemma atan_scaled_tan_regular (r : R) :
  r <> PI / 2 -> r <> - (PI / 2) -> atan_scaled_tan k r = atan (k * tan r).
Proof.
intros Hn Hs. unfold atan_scaled_tan.
destruct (Req_dec_T r (PI / 2)); [contradiction |].
destruct (Req_dec_T r (- (PI / 2))); [contradiction | reflexivity].
Qed.

Lemma atan_scaled_tan_inside (r : R) :
  - (PI / 2) < r < PI / 2 -> atan_scaled_tan k r = atan (k * tan r).
Proof. intros Hr. apply atan_scaled_tan_regular; lra. Qed.

Lemma atan_scaled_tan_cases (r : R) :
  (r = PI / 2 /\ atan_scaled_tan k r = PI / 2)
  \/ (r = - (PI / 2) /\ atan_scaled_tan k r = - (PI / 2))
  \/ (r <> PI / 2 /\ r <> - (PI / 2)
      /\ atan_scaled_tan k r = atan (k * tan r)).
Proof.
destruct (Req_dec_T r (PI / 2)) as [-> | Hn].
- left. split; [reflexivity | apply atan_scaled_tan_north].
- destruct (Req_dec_T r (- (PI / 2))) as [-> | Hs].
  + right. left. split; [reflexivity | apply atan_scaled_tan_south].
  + right. right. repeat split; try assumption.
    now apply atan_scaled_tan_regular.
Qed.

Lemma atan_scaled_tan_opp (r : R) :
  atan_scaled_tan k (- r) = - atan_scaled_tan k r.
Proof.
destruct (atan_scaled_tan_cases r) as [[-> ->] | [[-> ->] | (Hn & Hs & ->)]].
- apply atan_scaled_tan_south.
- rewrite Ropp_involutive. apply atan_scaled_tan_north.
- rewrite atan_scaled_tan_regular by lra.
  now rewrite tan_neg, <- Ropp_mult_distr_r, atan_opp.
Qed.


Lemma atan_scaled_tan_compose (k' r : R) :
  atan_scaled_tan k (atan_scaled_tan k' r) = atan_scaled_tan (k * k') r.
Proof.
unfold atan_scaled_tan at 2 3.
destruct (Req_dec_T r (PI / 2)); [apply atan_scaled_tan_north |].
destruct (Req_dec_T r (- (PI / 2))); [apply atan_scaled_tan_south |].
rewrite atan_scaled_tan_inside.
- now rewrite tan_atan, Rmult_assoc.
- generalize (atan_bound (k' * tan r)). lra.
Qed.

End ScaledTangent.

Lemma scaled_tan_run (k : R) (Hk : 0 < k) (use_numpy : bool) (r : R) :
  bind (Py.tan use_numpy (Fin r)) (fun t => Ok (Py.atan (Fin k * t)%py))
  = Ok (Fin (atan_scaled_tan k r)).
Proof.
destruct (tan_pole use_numpy) as [Htn Hts].
destruct (atan_scaled_tan_cases k r)
  as [[-> ->] | [[-> ->] | (Hn & Hs & ->)]].
- rewrite Htn. cbn. now rewrite inf_of_sign_pos.
- rewrite Hts. cbn. now rewrite inf_of_sign_neg by lra.
- rewrite tan_Fin by assumption. reflexivity.
Qed.

Lemma divided_tan_run (k : R) (Hk : 0 < k) (use_numpy : bool) (r : R) :
  bind (Py.tan use_numpy (Fin r))
       (fun t => bind (Py.div use_numpy t (Fin k))
                      (fun q => Ok (Py.atan q)))
  = Ok (Fin (atan_scaled_tan (/ k) r)).
Proof.
destruct (tan_pole use_numpy) as [Htn Hts].
assert (Hz : Py.is_zero (Fin k) = false).
{ cbn. destruct (Req_dec_T k 0); [lra | reflexivity]. }
destruct (atan_scaled_tan_cases (/ k) r)
  as [[-> ->] | [[-> ->] | (Hn & Hs & ->)]].
- rewrite Htn. cbn [bind]. unfold Py.div. rewrite Hz. cbn.
  destruct (Rlt_dec k 0); [lra | reflexivity].
- rewrite Hts. cbn [bind]. unfold Py.div. rewrite Hz. cbn.
  destruct (Rlt_dec k 0); [lra | reflexivity].
- rewrite tan_Fin by assumption. cbn [bind].
  rewrite div_Fin by lra. cbn [bind Py.atan].
  do 3 f_equal. unfold Rdiv. ring.
Qed.

Lemma atan_scaled_tan_one (r : R) :
  - (PI / 2) < r < PI / 2 -> atan_scaled_tan 1 r = r.
Proof.
intros Hr. rewrite atan_scaled_tan_inside by exact Hr.
rewrite Rmult_1_l. now apply atan_tan.
Qed.

Lemma atan_scaled_tan_inverse (k r : R) :
  k <> 0 -> - (PI / 2) < r < PI / 2 ->
  atan_scaled_tan (/ k) (atan_scaled_tan k r) = r
  /\ atan_scaled_tan k (atan_scaled_tan (/ k) r) = r.
Proof.
intros Hk Hr. rewrite !atan_scaled_tan_compose.
rewrite Rinv_l, Rinv_r by exact Hk.
split; now apply atan_scaled_tan_one.
Qed.

Section ArctangentRuns.

Variable use_numpy : bool.
Variable dflt : Ellipsoid.
Variable ell : option Ellipsoid.

Let san := utils.sanitize dflt.
Let e := eccentricity (utils.resolve dflt ell).

Hypothesis He : 0 <= e < 1.

Lemma sqrt_one_minus_e2 :
  0 < sqrt (1 - e ^ 2) /\ sqrt (1 - e ^ 2) * sqrt (1 - e ^ 2) = 1 - e ^ 2.
Proof.
split.
- apply sqrt_lt_R0. nra.
- apply sqrt_sqrt. nra.
Qed.

Lemma geodetic2geocentric_run (phi : R) :
  geodetic2geocentric use_numpy san (Fin phi) ell false
  = Ok (Fin (atan_scaled_tan (1 - e ^ 2) phi)).
Proof.
assert (Hk : 0 < 1 - e ^ 2) by nra.
unfold geodetic2geocentric, san, utils.sanitize. cbn [bind].
apply (scaled_tan_run _ Hk).
Qed.

Lemma geocentric2geodetic_run (phi : R) :
  geocentric2geodetic use_numpy san (Fin phi) ell false
  = Ok (Fin (atan_scaled_tan (/ (1 - e ^ 2)) phi)).
Proof.
assert (Hk : 0 < 1 - e ^ 2) by nra.
unfold geocentric2geodetic, san, utils.sanitize. cbn [bind].
apply (divided_tan_run _ Hk).
Qed.

Lemma geodetic2parametric_run (phi : R) :
  geodetic2parametric use_numpy san (Fin phi) ell false
  = Ok (Fin (atan_scaled_tan (sqrt (1 - e ^ 2)) phi)).
Proof.
destruct sqrt_one_minus_e2 as [Hk _].
unfold geodetic2parametric, san, utils.sanitize. cbn [bind]. fold e.
rewrite sqrt_Fin by nra. cbn [bind].
apply (scaled_tan_run _ Hk).
Qed.

Lemma parametric2geodetic_run (phi : R) :
  parametric2geodetic use_numpy san (Fin phi) ell false
  = Ok (Fin (atan_scaled_tan (/ sqrt (1 - e ^ 2)) phi)).
Proof.
destruct sqrt_one_minus_e2 as [Hk _].
unfold parametric2geodetic, san, utils.sanitize. cbn [bind]. fold e.
rewrite <- (divided_tan_run _ Hk use_numpy phi).
destruct (Py.tan use_numpy (Fin phi)) as [t |]; cbn [bind]; [| reflexivity].
rewrite sqrt_Fin by nra. reflexivity.
Qed.

End ArctangentRuns.

Section Oddness.

Variable use_numpy : bool.
Variable dflt : Ellipsoid.
Variable ell : option Ellipsoid.

Let san := utils.sanitize dflt.
Let e := eccentricity (utils.resolve dflt ell).

Hypothesis He : 0 <= e < 1.

Lemma geodetic2geocentric_odd (phi : R) :
  odd_at (fun x => geodetic2geocentric use_numpy san x ell false) (Fin phi).
Proof.
exists (Fin (atan_scaled_tan (1 - e ^ 2) phi)). cbn [Py.neg].
unfold san. rewrite !geodetic2geocentric_run by exact He. fold e.
now rewrite atan_scaled_tan_opp.
Qed.

Lemma geocentric2geodetic_odd (phi : R) :
  odd_at (fun x => geocentric2geodetic use_numpy san x ell false) (Fin phi).
Proof.
exists (Fin (atan_scaled_tan (/ (1 - e ^ 2)) phi)). cbn [Py.neg].
unfold san. rewrite !geocentric2geodetic_run by exact He. fold e.
now rewrite atan_scaled_tan_opp.
Qed.

Lemma geodetic2parametric_odd (phi : R) :
  odd_at (fun x => geodetic2parametric use_numpy san x ell false) (Fin phi).
Proof.
exists (Fin (atan_scaled_tan (sqrt (1 - e ^ 2)) phi)). cbn [Py.neg].
unfold san. rewrite !geodetic2parametric_run by exact He. fold e.
now rewrite atan_scaled_tan_opp.
Qed.

Lemma parametric2geodetic_odd (phi : R) :
  odd_at (fun x => parametric2geodetic use_numpy san x ell false) (Fin phi).
Proof.
exists (Fin (atan_scaled_tan (/ sqrt (1 - e ^ 2)) phi)). cbn [Py.neg].
unfold san. rewrite !parametric2geodetic_run by exact He. fold e.
now rewrite atan_scaled_tan_opp.
Qed.

Lemma conformal2geodetic_odd (phi : R) :
  odd_at (fun x => conformal2geodetic use_numpy san x ell false) (Fin phi).
Proof.
eexists. split; [reflexivity |].
cbn -[pow]. do 2 f_equal. sin_odd. ring.
Qed.

Lemma geodetic2rectifying_odd (phi : R) :
  odd_at (fun x => geodetic2rectifying use_numpy san x ell false) (Fin phi).
Proof.
eexists. split; [reflexivity |].
cbn -[pow]. do 2 f_equal. sin_odd. ring.
Qed.

Lemma rectifying2geodetic_odd (phi : R) :
  odd_at (fun x => rectifying2geodetic use_numpy san x ell false) (Fin phi).
Proof.
eexists. split; [reflexivity |].
cbn -[pow]. do 2 f_equal. sin_odd. ring.
Qed.

Lemma geodetic2authalic_odd (phi : R) :
  odd_at (fun x => geodetic2authalic use_numpy san x ell false) (Fin phi).
Proof.
eexists. split; [reflexivity |].
cbn -[pow]. do 2 f_equal. sin_odd. ring.
Qed.

Lemma authalic2geodetic_odd (phi : R) :
  odd_at (fun x => authalic2geodetic use_numpy san x ell false) (Fin phi).
Proof.
eexists. split; [reflexivity |].
cbn -[pow]. do 2 f_equal. sin_odd. ring.
Qed.

End Oddness.

Section OddnessAtPoles.

Variable use_numpy : bool.
Variable dflt : Ellipsoid.
Variable ell : option Ellipsoid.

Let san := utils.sanitize dflt.
Let e := eccentricity (utils.resolve dflt ell).

Hypothesis He : 0 <= e < 1.

Lemma isometric_forward_opp (phi : R) :
  Spec.isometric_forward e (- phi) = - Spec.isometric_forward e phi.
Proof.
unfold Spec.isometric_forward.
rewrite tan_neg, arcsinh_opp, sin_neg.
replace (e * - sin phi) with (- (e * sin phi)) by ring.
rewrite arctanh_opp; [ring |].
generalize (SIN_bound phi). nra.
Qed.

Lemma geodetic2isometric_point_odd (phi : R) :
  odd_at (fun x => geodetic2isometric_point use_numpy san x ell false) (Fin phi).
Proof.
unfold odd_at. cbn [Py.neg].
destruct (Rle_dec (Rabs (phi - PI / 2)) 1e-9) as [Hn | Hn].
- exists PInf. split.
  + now apply isometric_north_pole.
  + apply isometric_south_pole.
    replace (- phi + PI / 2) with (- (phi - PI / 2)) by ring.
    now rewrite Rabs_Ropp.
- destruct (Rle_dec (Rabs (phi + PI / 2)) 1e-9) as [Hs | Hs].
  + exists NInf. split.
    * now apply isometric_south_pole.
    * apply isometric_north_pole.
      replace (- phi - PI / 2) with (- (phi + PI / 2)) by ring.
      now rewrite Rabs_Ropp.
  + apply Rnot_le_lt in Hn, Hs.
    exists (Fin (Spec.isometric_forward e phi)). split.
    * now apply isometric_regular.
    * cbn [Py.neg]. rewrite <- isometric_forward_opp.
      apply isometric_regular; [exact He | |].
      -- replace (- phi - PI / 2) with (- (phi + PI / 2)) by ring.
         now rewrite Rabs_Ropp.
      -- replace (- phi + PI / 2) with (- (phi - PI / 2)) by ring.
         now rewrite Rabs_Ropp.
Qed.

Lemma conformal_forward_arg (phi : R) :
  Spec.conformal_forward e phi = 2 * atan (conformal_arg e (sin phi)) - PI / 2.
Proof. reflexivity. Qed.

Lemma conformal_forward_south (phi : R) :
  sin phi = -1 -> Spec.conformal_forward e phi = - (PI / 2).
Proof.
intros Hs. rewrite conformal_forward_arg. unfold conformal_arg. rewrite Hs.
replace ((1 + -1) / (1 - -1)) with 0 by lra.
rewrite Rmult_0_l, sqrt_0, atan_0. lra.
Qed.

Lemma conformal_forward_opp (phi : R) :
  -1 < sin phi < 1 ->
  Spec.conformal_forward e (- phi) = - Spec.conformal_forward e phi.
Proof.
intros Hs. rewrite !conformal_forward_arg, sin_neg.
destruct (conformal_arg_opp e (sin phi) He Hs) as [Hpos ->].
rewrite atan_inv by exact Hpos. lra.
Qed.

Lemma geodetic2conformal_point_odd (phi : R) :
  odd_at (fun x => geodetic2conformal_point use_numpy san x ell false) (Fin phi).
Proof.
unfold odd_at. cbn [Py.neg].
generalize (SIN_bound phi); intros Hb.
destruct (Req_dec_T (sin phi) 1) as [H1 | H1].
- exists (Fin (PI / 2)). split.
  + now apply conformal_pole.
  + cbn [Py.neg]. rewrite <- (conformal_forward_south (- phi)).
    * apply conformal_regular; [exact He |]. rewrite sin_neg. lra.
    * rewrite sin_neg. lra.
- exists (Fin (Spec.conformal_forward e phi)). split.
  + now apply conformal_regular.
  + cbn [Py.neg]. destruct (Req_dec_T (sin phi) (-1)) as [H2 | H2].
    * rewrite conformal_forward_south by exact H2.
      rewrite Ropp_involutive.
      apply conformal_pole; [exact He |]. rewrite sin_neg. lra.
    * rewrite <- conformal_forward_opp by lra.
      apply conformal_regular; [exact He |]. rewrite sin_neg. lra.
Qed.

Lemma conformal_of_isometric_Fin (r : R) :
  exp r <= Py.dbl_max ->
  conformal_of_isometric use_numpy (Fin r)
  = Ok (Fin (Spec.isometric_to_conformal r)).
Proof.
intros Hr. unfold conformal_of_isometric. rewrite exp_Fin by exact Hr.
reflexivity.
Qed.

Lemma conformal_of_isometric_overflow (r : R) :
  Py.dbl_max < exp r ->
  conformal_of_isometric use_numpy (Fin r)
  = if use_numpy then Ok (Fin (PI / 2)) else Raise OverflowError.
Proof.
intros Hr. unfold conformal_of_isometric. rewrite exp_overflow by exact Hr.
destruct use_numpy; [| reflexivity].
cbn. do 2 f_equal. field.
Qed.

Lemma conformal_of_isometric_inf :
  conformal_of_isometric use_numpy PInf = Ok (Fin (PI / 2))
  /\ conformal_of_isometric use_numpy NInf = Ok (Fin (- (PI / 2))).
Proof.
split; cbn; do 2 f_equal.
- field.
- rewrite atan_0. lra.
Qed.

Lemma isometric2geodetic_unfold (sanitize : sanitizer) (x : pyfloat) (deg : bool) :
  isometric2geodetic use_numpy sanitize x ell deg
  = bind (conformal_of_isometric use_numpy (if deg then Py.radians x else x))
         (fun c =>
            bind (conformal2geodetic use_numpy sanitize c ell false)
                 (fun g => Ok (if deg then Py.degrees g else g))).
Proof.
unfold isometric2geodetic, conformal_of_isometric.
destruct (Py.exp use_numpy (if deg then Py.radians x else x)); reflexivity.
Qed.

Lemma isometric2geodetic_odd (r : R) :
  exp r <= Py.dbl_max -> exp (- r) <= Py.dbl_max ->
  odd_at (fun y => isometric2geodetic use_numpy san y ell false) (Fin r).
Proof.
intros Hr Hopp. unfold odd_at. cbn [Py.neg].
rewrite !isometric2geodetic_unfold.
rewrite !conformal_of_isometric_Fin by assumption. cbn [bind].
rewrite isometric_to_conformal_opp.
destruct (conformal2geodetic_odd use_numpy dflt ell
            (Spec.isometric_to_conformal r)) as [v [Hv Hneg]].
exists v. fold san in Hv, Hneg. cbn [Py.neg] in Hneg.
now rewrite Hv, Hneg.
Qed.

Lemma isometric2geodetic_odd_inf :
  odd_at (fun y => isometric2geodetic use_numpy san y ell false) PInf.
Proof.
destruct conformal_of_isometric_inf as [Hp Hn].
unfold odd_at. cbn [Py.neg].
rewrite !isometric2geodetic_unfold, Hp, Hn. cbn [bind].
destruct (conformal2geodetic_odd use_numpy dflt ell (PI / 2)) as [v [Hv Hneg]].
exists v. fold san in Hv, Hneg. cbn [Py.neg] in Hneg.
now rewrite Hv, Hneg.
Qed.

End OddnessAtPoles.

(** ** Ordering of geocentric, parametric and geodetic latitude *)

Section Ordering.

Variable use_numpy : bool.
Variable dflt : Ellipsoid.
Variable ell : option Ellipsoid.

Let san := utils.sanitize dflt.
Let e := eccentricity (utils.resolve dflt ell).

Lemma latitude_ordering_radians (phi : R) :
  0 < e < 1 -> 0 < phi < PI / 2 ->
  atan ((1 - e ^ 2) * tan phi) <= atan (sqrt (1 - e ^ 2) * tan phi)
  /\ atan (sqrt (1 - e ^ 2) * tan phi) <= phi.
Proof.
intros He Hphi.
assert (Ht : 0 < tan phi) by (apply tan_gt_0; lra).
assert (Hk : 0 < 1 - e ^ 2 < 1) by nra.
destruct (sqrt_between _ Hk) as [Hle [Hs0 Hs1]].
split.
- apply atan_le. nra.
- rewrite <- (atan_tan phi) at 2 by lra.
  apply atan_le. nra.
Qed.

End Ordering.

(** ** The properties of the specification *)

Lemma wgs84_like_valid : valid_ellipsoid wgs84_like.
Proof. unfold valid_ellipsoid. simpl. lra. Qed.

(** C1.  With an eccentricity in [0, 1) and a latitude in radians,
    [geodetic2isometric] returns plus infinity within 1e-9 of PI/2, minus
    infinity within 1e-9 of -PI/2, and otherwise
    asinh(tan(lat)) - e * atanh(e * sin(lat)); in degrees, 90 gives plus
    infinity, -90 minus infinity and 0 gives 0. *)
Theorem geodetic2isometric_cases :
  forall (use_numpy : bool) (dflt : Ellipsoid) (ell : option Ellipsoid) (phi : R),
    0 <= eccentricity (utils.resolve dflt ell) < 1 ->
    let f := geodetic2isometric use_numpy (utils.sanitize dflt) in
    let e := eccentricity (utils.resolve dflt ell) in
    (Rabs (phi - PI / 2) <= 1e-9 -> f (Fin phi) ell false = Ok PInf)
    /\ (Rabs (phi - - (PI / 2)) <= 1e-9 -> f (Fin phi) ell false = Ok NInf)
    /\ (1e-9 < Rabs (phi - PI / 2) -> 1e-9 < Rabs (phi - - (PI / 2)) ->
        f (Fin phi) ell false
        = Ok (Fin (arcsinh (tan phi) - e * Py.arctanh (e * sin phi))))
    /\ f (Fin 90) ell true = Ok PInf
    /\ f (Fin (-90)) ell true = Ok NInf
    /\ f (Fin 0) ell true = Ok (Fin 0).
Proof.
intros np dflt ell phi He f e. subst f.
generalize tolerance_small; intros Htol.
repeat split; try intros H1; try intros H2;
  rewrite geodetic2isometric_unfold.
- now apply isometric_north_pole.
- apply isometric_south_pole.
  replace (phi + PI / 2) with (phi - - (PI / 2)) by ring. exact H1.
- apply isometric_regular; try assumption.
  replace (phi + PI / 2) with (phi - - (PI / 2)) by ring. exact H2.
- rewrite geodetic2isometric_point_deg. unfold in_degrees.
  cbn [Py.radians Py.mul].
  rewrite isometric_north_pole.
  + cbn [bind]. f_equal. apply degrees_inf.
  + replace (90 * (PI / 180) - PI / 2) with 0 by field.
    rewrite Rabs_R0. lra.
- rewrite geodetic2isometric_point_deg. unfold in_degrees.
  cbn [Py.radians Py.mul].
  rewrite isometric_south_pole.
  + cbn [bind]. f_equal. apply degrees_inf.
  + replace (-90 * (PI / 180) + PI / 2) with 0 by field.
    rewrite Rabs_R0. lra.
- rewrite geodetic2isometric_point_deg. unfold in_degrees.
  cbn [Py.radians Py.mul].
  rewrite Rmult_0_l.
  rewrite isometric_regular.
  + cbn [bind Py.degrees Py.mul]. do 2 f_equal.
    unfold Spec.isometric_forward.
    rewrite tan_0, sin_0, Rmult_0_r, arcsinh_0, arctanh_0. ring.
  + exact He.
  + unfold Rminus. rewrite Rplus_0_l, Rabs_Ropp, Rabs_pos_eq; lra.
  + rewrite Rplus_0_l, Rabs_pos_eq; lra.
Qed.

Lemma geodetic2isometric_cases_witness :
  0 <= eccentricity (utils.resolve wgs84_like None) < 1
  /\ geodetic2isometric false (utils.sanitize wgs84_like) (Fin (PI / 2)) None false
     = Ok PInf.
Proof.
assert (He : 0 <= eccentricity (utils.resolve wgs84_like None) < 1)
  by (simpl; lra).
split; [exact He |].
apply (geodetic2isometric_cases false wgs84_like None (PI / 2) He).
unfold Rminus. rewrite Rplus_opp_r, Rabs_R0. lra.
Defined.

(** C2.  With an eccentricity in [0, 1), [geodetic2conformal] returns
    2 * atan(sqrt((f4 / f3) * (f1 / f2) ^ e)) - PI/2 with f1 = 1 - e sin,
    f2 = 1 + e sin, f3 = 1 - sin, f4 = 1 + sin wherever f3 is not zero; at
    PI/2, where f3 = 0, it returns PI/2 (90 in degrees) and raises
    nothing. *)
Theorem geodetic2conformal_formula_and_pole :
  forall (use_numpy : bool) (dflt : Ellipsoid) (ell : option Ellipsoid) (phi : R),
    0 <= eccentricity (utils.resolve dflt ell) < 1 ->
    let f := geodetic2conformal use_numpy (utils.sanitize dflt) in
    let e := eccentricity (utils.resolve dflt ell) in
    (1 - sin phi <> 0 ->
     f (Fin phi) ell false = Ok (Fin (Spec.conformal_forward e phi)))
    /\ f (Fin (PI / 2)) ell false = Ok (Fin (PI / 2))
    /\ f (Fin 90) ell true = Ok (Fin 90).
Proof.
intros np dflt ell phi He f e. subst f.
repeat split; try intros H1; rewrite geodetic2conformal_unfold.
- apply conformal_regular; [exact He | lra].
- apply conformal_pole; [exact He | apply sin_PI2].
- rewrite geodetic2conformal_point_deg. unfold in_degrees.
  cbn [Py.radians Py.mul].
  rewrite conformal_pole.
  + cbn [bind Py.degrees Py.mul]. do 2 f_equal. field. apply PI_neq0.
  + exact He.
  + replace (90 * (PI / 180)) with (PI / 2) by field. apply sin_PI2.
Qed.

Lemma geodetic2conformal_formula_and_pole_witness :
  0 <= eccentricity (utils.resolve wgs84_like None) < 1
  /\ geodetic2conformal true (utils.sanitize wgs84_like) (Fin 90) None true
     = Ok (Fin 90).
Proof.
assert (He : 0 <= eccentricity (utils.resolve wgs84_like None) < 1)
  by (simpl; lra).
split; [exact He |].
apply (geodetic2conformal_formula_and_pole true wgs84_like None 0 He).
Defined.

(** C3.  In radians, [conformal2geodetic] returns the conformal latitude
    plus f1 sin(2x) + f2 sin(4x) + f3 sin(6x) + f4 sin(8x), with the
    coefficients of the specification. *)
Theorem conformal2geodetic_series :
  forall (use_numpy : bool) (dflt : Ellipsoid) (ell : option Ellipsoid) (phi : R),
    conformal2geodetic use_numpy (utils.sanitize dflt) (Fin phi) ell false
    = Ok (Fin (Spec.conformal_inverse
                 (eccentricity (utils.resolve dflt ell)) phi)).
Proof. reflexivity. Qed.

(** C4.  [isometric2geodetic] converts its input to radians when [deg] is
    set, computes the conformal latitude 2 * atan(exp(x)) - PI/2 in
    radians, calls [conformal2geodetic] on it with [deg = False] and
    converts the result to degrees when [deg] is set; this holds at every
    input, an exception of a step being the exception of the call, and the
    value is written out where the exponential is within the range of a
    double.  Its own input never reaches the sanitizer, which sees the
    conformal latitude in radians only; the other eleven functions start by
    sanitizing their input. *)
Theorem isometric2geodetic_structure :
  forall (use_numpy : bool) (san : sanitizer) (dflt : Ellipsoid)
         (x : pyfloat) (psi : R) (ell : option Ellipsoid) (deg : bool),
    let e := eccentricity (utils.resolve dflt ell) in
    isometric2geodetic use_numpy san x ell deg
    = bind (conformal_of_isometric use_numpy
              (if deg then Py.radians x else x))
           (fun conformal_lat =>
              bind (conformal2geodetic use_numpy san conformal_lat ell false)
                   (fun g => Ok (if deg then Py.degrees g else g)))
    /\ (exp psi <= Py.dbl_max ->
        isometric2geodetic use_numpy (utils.sanitize dflt) (Fin psi) ell false
        = Ok (Fin (Spec.conformal_inverse e (Spec.isometric_to_conformal psi))))
    /\ (exp (psi * (PI / 180)) <= Py.dbl_max ->
        isometric2geodetic use_numpy (utils.sanitize dflt) (Fin psi) ell true
        = Ok (Fin (Spec.conformal_inverse e
                     (Spec.isometric_to_conformal (psi * (PI / 180)))
                   * (180 / PI))))
    /\ (forall san' : sanitizer,
          (forall c, san' c ell false = san c ell false) ->
          isometric2geodetic use_numpy san' x ell deg
          = isometric2geodetic use_numpy san x ell deg)
    /\ (forall (f : conversion) (err : exn),
          In f all_conversions -> f <> isometric2geodetic ->
          san x ell deg = Raise err ->
          f use_numpy san x ell deg = Raise err).
Proof.
intros np san dflt x psi ell deg e.
split; [apply isometric2geodetic_unfold |].
split.
{ intros Hpsi. rewrite isometric2geodetic_unfold.
  rewrite conformal_of_isometric_Fin by exact Hpsi. reflexivity. }
split.
{ intros Hpsi. rewrite isometric2geodetic_unfold. cbn [Py.radians Py.mul].
  rewrite conformal_of_isometric_Fin by exact Hpsi. reflexivity. }
split.
- intros san' Hsan. rewrite !isometric2geodetic_unfold.
  destruct (conformal_of_isometric np (if deg then Py.radians x else x));
    cbn [bind]; [| reflexivity].
  unfold conformal2geodetic. now rewrite Hsan.
- intros f err Hin Hf Hraise. simpl in Hin.
  repeat (destruct Hin as [<- | Hin]); try contradiction;
    try (exfalso; apply Hf; reflexivity);
    unfold geodetic2isometric, geodetic2conformal, vectorize,
      geodetic2isometric_point, geodetic2conformal_point,
      geodetic2geocentric, geocentric2geodetic, geodetic2rectifying,
      rectifying2geodetic, geodetic2authalic, authalic2geodetic,
      geodetic2parametric, parametric2geodetic, conformal2geodetic;
    rewrite Hraise; now destruct np.
Qed.

Lemma isometric2geodetic_structure_witness :
  exp 1 <= Py.dbl_max
  /\ (exists r : R,
        isometric2geodetic false (utils.sanitize wgs84_like) (Fin 1) None false
        = Ok (Fin r))
  /\ (forall c, utils.sanitize wgs84_like c None false
                = radians_only_sanitize c None false)
  /\ isometric2geodetic false (utils.sanitize wgs84_like) (Fin 1) None true
     = isometric2geodetic false radians_only_sanitize (Fin 1) None true
  /\ radians_only_sanitize (Fin 1) None true = Raise ValueError
  /\ geodetic2authalic false radians_only_sanitize (Fin 1) None true
     = Raise ValueError.
Proof.
pose proof (isometric2geodetic_structure false radians_only_sanitize
              wgs84_like (Fin 1) 1 None true) as (_ & Hval & _ & Hsan & Hall).
split; [exact exp_1_in_range |].
split; [eexists; exact (Hval exp_1_in_range) |].
split; [reflexivity |]. split; [| split; [reflexivity |]].
- apply Hsan. reflexivity.
- apply (Hall geodetic2authalic ValueError).
  + simpl. tauto.
  + intros Heq.
    apply (f_equal (fun f => f false radians_only_sanitize NaN None true))
      in Heq.
    cbn in Heq. discriminate Heq.
  + reflexivity.
Defined.

(** C5.  In radians, [geodetic2rectifying] returns
    x - f1 sin(2x) + f2 sin(4x) - f3 sin(6x) + f4 sin(8x) and
    [rectifying2geodetic] returns x + f1 sin(2x) + f2 sin(4x) + f3 sin(6x)
    + f4 sin(8x), each with its own coefficients in the third flattening,
    as the specification lists them. *)
Theorem rectifying_series :
  forall (use_numpy : bool) (dflt : Ellipsoid) (ell : option Ellipsoid) (phi : R),
    let n := thirdflattening (utils.resolve dflt ell) in
    geodetic2rectifying use_numpy (utils.sanitize dflt) (Fin phi) ell false
    = Ok (Fin (Spec.rectifying_forward n phi))
    /\ rectifying2geodetic use_numpy (utils.sanitize dflt) (Fin phi) ell false
       = Ok (Fin (Spec.rectifying_inverse n phi)).
Proof. intros np dflt ell phi n. split; reflexivity. Qed.

(** C6.  In radians, [geodetic2authalic] returns
    x - f1 sin(2x) + f2 sin(4x) - f3 sin(6x) and [authalic2geodetic]
    returns x + f1 sin(2x) + f2 sin(4x) + f3 sin(6x), each with its own
    coefficients in the eccentricity, as the specification lists them. *)
Theorem authalic_series :
  forall (use_numpy : bool) (dflt : Ellipsoid) (ell : option Ellipsoid) (phi : R),
    let e := eccentricity (utils.resolve dflt ell) in
    geodetic2authalic use_numpy (utils.sanitize dflt) (Fin phi) ell false
    = Ok (Fin (Spec.authalic_forward e phi))
    /\ authalic2geodetic use_numpy (utils.sanitize dflt) (Fin phi) ell false
       = Ok (Fin (Spec.authalic_inverse e phi)).
Proof. intros np dflt ell phi e. split; reflexivity. Qed.

Ltac odd_in_both_units deg_lemma odd_lemma :=
  match goal with
  | |- odd_at (fun x => ?f ?np ?san x ?ell ?deg) ?y =>
      apply (odd_both_units (fun x d => f np san x ell d) finite);
      [ exact finite_radians
      | intros ?; apply deg_lemma
      | intros ? [? ->]; apply odd_lemma; assumption
      | eexists; reflexivity ]
  end.

(** C7, counterexample.  On the [math] branch [isometric2geodetic] is
    not odd at 1100 radians: the exponential overflows and the call raises
    [OverflowError], while at -1100 it returns a number. *)
Lemma isometric2geodetic_not_odd_at_1100 :
  isometric2geodetic false (utils.sanitize wgs84_like) (Fin 1100) None false
  = Raise OverflowError
  /\ (exists r : R,
        isometric2geodetic false (utils.sanitize wgs84_like)
          (Fin (- (1100))) None false
        = Ok (Fin r))
  /\ ~ (forall f : conversion,
          In f all_conversions ->
          odd_at (fun x => f false (utils.sanitize wgs84_like) x None false)
                 (Fin 1100)).
Proof.
assert (Hraise :
  isometric2geodetic false (utils.sanitize wgs84_like) (Fin 1100) None false
  = Raise OverflowError).
{ rewrite isometric2geodetic_unfold.
  rewrite conformal_of_isometric_overflow by exact exp_1100_overflows.
  reflexivity. }
split; [exact Hraise |]. split.
- eexists. rewrite isometric2geodetic_unfold.
  rewrite conformal_of_isometric_Fin
    by (apply exp_nonpositive_in_range; lra).
  reflexivity.
- intros Hodd.
  destruct (Hodd isometric2geodetic) as [v [Hv _]]; [simpl; tauto |].
  cbv beta in Hv. rewrite Hraise in Hv. discriminate Hv.
Qed.

(** C7.  Each of the twelve conversions is odd: at a finite
    latitude and at its opposite both calls return, with opposite results;
    for [isometric2geodetic] this is so where the exponential of the input
    in radians and that of its opposite are within the range of a double,
    and at the two infinities.  For [geodetic2isometric] it covers the pole
    branches, where PI/2 gives plus infinity and -PI/2 minus infinity. *)
Theorem conversions_are_odd :
  forall (use_numpy : bool) (dflt : Ellipsoid) (ell : option Ellipsoid)
         (deg : bool) (phi : R),
    0 <= eccentricity (utils.resolve dflt ell) < 1 ->
    let san := utils.sanitize dflt in
    let lat := if deg then phi * (PI / 180) else phi in
    (forall f : conversion,
        In f all_conversions ->
        (f = isometric2geodetic ->
         exp lat <= Py.dbl_max /\ exp (- lat) <= Py.dbl_max) ->
        odd_at (fun x => f use_numpy san x ell deg) (Fin phi))
    /\ geodetic2isometric use_numpy san (Fin (PI / 2)) ell false = Ok PInf
    /\ geodetic2isometric use_numpy san (Fin (- (PI / 2))) ell false = Ok NInf
    /\ odd_at (fun y => isometric2geodetic use_numpy san y ell deg) PInf.
Proof.
intros np dflt ell deg phi He san lat. subst san lat.
repeat split.
- intros f Hin Hrange. simpl in Hin.
  repeat (destruct Hin as [<- | Hin]); try contradiction.
  + apply odd_at_ext
      with (f := fun x => geodetic2isometric_point np (utils.sanitize dflt) x ell deg).
    * intros y. apply geodetic2isometric_unfold.
    * odd_in_both_units geodetic2isometric_point_deg geodetic2isometric_point_odd.
  + destruct (Hrange eq_refl) as [Hr Hopp]. destruct deg.
    * apply odd_at_ext
        with (f := in_degrees
                     (fun y => isometric2geodetic np (utils.sanitize dflt) y ell false)).
      -- intros y. apply isometric2geodetic_deg.
      -- apply odd_at_in_degrees. cbn [Py.radians Py.mul].
         apply isometric2geodetic_odd; assumption.
    * apply isometric2geodetic_odd; assumption.
  + odd_in_both_units geodetic2rectifying_deg geodetic2rectifying_odd.
  + odd_in_both_units rectifying2geodetic_deg rectifying2geodetic_odd.
  + apply odd_at_ext
      with (f := fun x => geodetic2conformal_point np (utils.sanitize dflt) x ell deg).
    * intros y. apply geodetic2conformal_unfold.
    * odd_in_both_units geodetic2conformal_point_deg geodetic2conformal_point_odd.
  + odd_in_both_units conformal2geodetic_deg conformal2geodetic_odd.
  + odd_in_both_units geodetic2parametric_deg geodetic2parametric_odd.
  + odd_in_both_units parametric2geodetic_deg parametric2geodetic_odd.
  + odd_in_both_units geodetic2geocentric_deg geodetic2geocentric_odd.
  + odd_in_both_units geocentric2geodetic_deg geocentric2geodetic_odd.
  + odd_in_both_units geodetic2authalic_deg geodetic2authalic_odd.
  + odd_in_both_units authalic2geodetic_deg authalic2geodetic_odd.
- rewrite geodetic2isometric_unfold. apply isometric_north_pole.
  unfold Rminus. rewrite Rplus_opp_r, Rabs_R0. lra.
- rewrite geodetic2isometric_unfold. apply isometric_south_pole.
  rewrite Rplus_opp_l, Rabs_R0. lra.
- destruct deg.
  + apply odd_at_ext
      with (f := in_degrees
                   (fun y => isometric2geodetic np (utils.sanitize dflt) y ell false)).
    * intros y. apply isometric2geodetic_deg.
    * apply odd_at_in_degrees. rewrite (proj1 radians_inf).
      apply isometric2geodetic_odd_inf; assumption.
  + apply isometric2geodetic_odd_inf; assumption.
Qed.

Lemma conversions_are_odd_witness :
  0 <= eccentricity (utils.resolve wgs84_like None) < 1
  /\ In isometric2geodetic all_conversions
  /\ (isometric2geodetic = isometric2geodetic ->
      exp 1 <= Py.dbl_max /\ exp (- (1)) <= Py.dbl_max)
  /\ odd_at (fun x => isometric2geodetic false (utils.sanitize wgs84_like)
                        x None false) (Fin 1).
Proof.
assert (He : 0 <= eccentricity (utils.resolve wgs84_like None) < 1)
  by (simpl; lra).
assert (Hin : In isometric2geodetic all_conversions) by (simpl; tauto).
assert (Hrange : isometric2geodetic = isometric2geodetic ->
                 exp 1 <= Py.dbl_max /\ exp (- (1)) <= Py.dbl_max).
{ intros _. split; [exact exp_1_in_range |].
  apply exp_nonpositive_in_range. lra. }
split; [exact He |]. split; [exact Hin |]. split; [exact Hrange |].
exact (proj1 (conversions_are_odd false wgs84_like None false 1 He)
         isometric2geodetic Hin Hrange).
Defined.

(** C8.  On an ellipsoid with 0 < e < 1 and for a geodetic latitude
    strictly between 0 and 90 degrees (0 and PI/2 in radians), the
    geocentric latitude is at most the parametric latitude, which is at
    most the geodetic latitude. *)
Theorem geocentric_parametric_geodetic_order :
  forall (use_numpy : bool) (dflt : Ellipsoid) (ell : option Ellipsoid)
         (deg : bool) (phi : R),
    0 < eccentricity (utils.resolve dflt ell) < 1 ->
    0 < phi < (if deg then 90 else PI / 2) ->
    exists geocentric_lat parametric_lat : R,
      geodetic2geocentric use_numpy (utils.sanitize dflt) (Fin phi) ell deg
      = Ok (Fin geocentric_lat)
      /\ geodetic2parametric use_numpy (utils.sanitize dflt) (Fin phi) ell deg
         = Ok (Fin parametric_lat)
      /\ geocentric_lat <= parametric_lat
      /\ parametric_lat <= phi.
Proof.
intros np dflt ell deg phi He Hphi.
set (e := eccentricity (utils.resolve dflt ell)) in *.
assert (He' : 0 <= e < 1) by lra.
destruct deg.
- destruct deg_rad_pos as [Hr Hd].
  assert (Hlat : 0 < phi * (PI / 180) < PI / 2).
  { split; [nra |]. replace (PI / 2) with (90 * (PI / 180)) by field. nra. }
  destruct (latitude_ordering_radians dflt ell _ He Hlat) as [H1 H2].
  fold e in H1, H2.
  exists (atan ((1 - e ^ 2) * tan (phi * (PI / 180))) * (180 / PI)),
         (atan (sqrt (1 - e ^ 2) * tan (phi * (PI / 180))) * (180 / PI)).
  split; [| split; [| split]].
  + rewrite geodetic2geocentric_deg. unfold in_degrees.
    cbn [Py.radians Py.mul]. rewrite geodetic2geocentric_run by exact He'.
    fold e. rewrite atan_scaled_tan_inside by lra. reflexivity.
  + rewrite geodetic2parametric_deg. unfold in_degrees.
    cbn [Py.radians Py.mul]. rewrite geodetic2parametric_run by exact He'.
    fold e. rewrite atan_scaled_tan_inside by lra. reflexivity.
  + apply Rmult_le_compat_r; lra.
  + rewrite <- (deg_rad_inverse phi) at 2.
    apply Rmult_le_compat_r; lra.
- destruct (latitude_ordering_radians dflt ell _ He Hphi) as [H1 H2].
  fold e in H1, H2.
  exists (atan ((1 - e ^ 2) * tan phi)), (atan (sqrt (1 - e ^ 2) * tan phi)).
  split; [| split; [| split]]; try assumption.
  + rewrite geodetic2geocentric_run by exact He'.
    fold e. rewrite atan_scaled_tan_inside by lra. reflexivity.
  + rewrite geodetic2parametric_run by exact He'.
    fold e. rewrite atan_scaled_tan_inside by lra. reflexivity.
Qed.

Lemma geocentric_parametric_geodetic_order_witness :
  0 < eccentricity (utils.resolve wgs84_like None) < 1
  /\ 0 < 45 < 90
  /\ exists geocentric_lat parametric_lat : R,
      geodetic2geocentric true (utils.sanitize wgs84_like) (Fin 45) None true
      = Ok (Fin geocentric_lat)
      /\ geodetic2parametric true (utils.sanitize wgs84_like) (Fin 45) None true
         = Ok (Fin parametric_lat)
      /\ geocentric_lat <= parametric_lat
      /\ parametric_lat <= 45.
Proof.
assert (He : 0 < eccentricity (utils.resolve wgs84_like None) < 1)
  by (simpl; lra).
assert (Hphi : 0 < 45 < 90) by lra.
split; [exact He |]. split; [exact Hphi |].
exact (geocentric_parametric_geodetic_order true wgs84_like None true 45 He Hphi).
Defined.

Lemma sin_at_pole :
  sin (2 * (PI / 2)) = 0 /\ sin (4 * (PI / 2)) = 0
  /\ sin (6 * (PI / 2)) = 0 /\ sin (8 * (PI / 2)) = 0.
Proof.
repeat split.
- replace (2 * (PI / 2)) with (1 * PI) by field. apply (sin_multiple_PI 1).
- replace (4 * (PI / 2)) with (2 * PI) by field. apply (sin_multiple_PI 2).
- replace (6 * (PI / 2)) with (3 * PI) by field. apply (sin_multiple_PI 3).
- replace (8 * (PI / 2)) with (4 * PI) by field. apply (sin_multiple_PI 4).
Qed.

Ltac series_at_pole :=
  cbn -[pow]; do 2 f_equal; sin_odd;
  destruct sin_at_pole as (H2 & H4 & H6 & H8);
  rewrite ?H2, ?H4, ?H6, ?H8; ring.

Lemma conformal2geodetic_poles
    (use_numpy : bool) (dflt : Ellipsoid) (ell : option Ellipsoid) :
  conformal2geodetic use_numpy (utils.sanitize dflt) (Fin (PI / 2)) ell false
  = Ok (Fin (PI / 2))
  /\ conformal2geodetic use_numpy (utils.sanitize dflt) (Fin (- (PI / 2))) ell false
     = Ok (Fin (- (PI / 2))).
Proof. split; series_at_pole. Qed.

(** C9.  [isometric2geodetic] sends plus infinity to PI/2 and minus
    infinity to -PI/2 (90 and -90 in degrees): the exponential is plus
    infinity, respectively 0, the conformal latitude is PI/2, respectively
    -PI/2, and there every sine of the inverse conformal series is 0. *)
Theorem isometric2geodetic_at_infinity :
  forall (use_numpy : bool) (dflt : Ellipsoid) (ell : option Ellipsoid),
    let f := isometric2geodetic use_numpy (utils.sanitize dflt) in
    Py.exp use_numpy PInf = Ok PInf /\ Py.exp use_numpy NInf = Ok (Fin 0)
    /\ f PInf ell false = Ok (Fin (PI / 2))
    /\ f NInf ell false = Ok (Fin (- (PI / 2)))
    /\ f PInf ell true = Ok (Fin 90)
    /\ f NInf ell true = Ok (Fin (-90)).
Proof.
intros np dflt ell f. subst f.
destruct (conformal_of_isometric_inf np) as [Hp Hn].
destruct radians_inf as [Hrp Hrn].
destruct (conformal2geodetic_poles np dflt ell) as [Hcp Hcn].
do 2 (split; [reflexivity |]).
repeat split; rewrite isometric2geodetic_unfold;
  rewrite ?Hrp, ?Hrn, ?Hp, ?Hn; cbn [bind]; rewrite ?Hcp, ?Hcn;
  cbn; try reflexivity;
  do 2 f_equal; field; apply PI_neq0.
Qed.

(** C10.  The poles are fixed points of the five series: in radians,
    [geodetic2rectifying], [rectifying2geodetic], [geodetic2authalic],
    [authalic2geodetic] and [conformal2geodetic] send PI/2 to PI/2 and
    -PI/2 to -PI/2, every term being a multiple of the sine of a multiple
    of PI. *)
Theorem series_fix_the_poles :
  forall (use_numpy : bool) (dflt : Ellipsoid) (ell : option Ellipsoid)
         (f : conversion),
    In f [geodetic2rectifying; rectifying2geodetic; geodetic2authalic;
          authalic2geodetic; conformal2geodetic] ->
    f use_numpy (utils.sanitize dflt) (Fin (PI / 2)) ell false
    = Ok (Fin (PI / 2))
    /\ f use_numpy (utils.sanitize dflt) (Fin (- (PI / 2))) ell false
       = Ok (Fin (- (PI / 2))).
Proof.
intros np dflt ell f Hin. simpl in Hin.
repeat (destruct Hin as [<- | Hin]); try contradiction;
  split; series_at_pole.
Qed.

Lemma series_fix_the_poles_witness :
  In geodetic2rectifying
     [geodetic2rectifying; rectifying2geodetic; geodetic2authalic;
      authalic2geodetic; conformal2geodetic]
  /\ geodetic2rectifying false (utils.sanitize wgs84_like) (Fin (PI / 2)) None false
     = Ok (Fin (PI / 2)).
Proof.
assert (Hin : In geodetic2rectifying
     [geodetic2rectifying; rectifying2geodetic; geodetic2authalic;
      authalic2geodetic; conformal2geodetic]) by (simpl; tauto).
split; [exact Hin |].
apply (series_fix_the_poles false wgs84_like None geodetic2rectifying Hin).
Defined.

(** ** Further properties: compositions and round trips *)

Lemma rad_deg_inverse (x : R) : x * (180 / PI) * (PI / 180) = x.
Proof. field. apply PI_neq0. Qed.

(** Composing two conversions with the same unit flag, from what they do in
    radians. *)
Lemma compose_in_units
    (f g : pyfloat -> bool -> result pyfloat) (F G : R -> R) (P : R -> Prop) :
  (forall x, g x true = in_degrees (fun y => g y false) x) ->
  (forall x, f x true = in_degrees (fun y => f y false) x) ->
  (forall r, P r -> g (Fin r) false = Ok (Fin (G r))) ->
  (forall r, P r -> f (Fin (G r)) false = Ok (Fin (F r))) ->
  forall (deg : bool) (r : R),
    P (if deg then r * (PI / 180) else r) ->
    bind (g (Fin r) deg) (fun y => f y deg)
    = Ok (Fin (if deg then F (r * (PI / 180)) * (180 / PI) else F r)).
Proof.
intros Hg Hf Hgr Hfr [] r HP.
- rewrite Hg. unfold in_degrees. cbn [Py.radians Py.mul].
  rewrite (Hgr _ HP). cbn [bind Py.degrees Py.mul].
  rewrite Hf. unfold in_degrees. cbn [Py.radians Py.mul].
  rewrite rad_deg_inverse, (Hfr _ HP). reflexivity.
- rewrite (Hgr _ HP). cbn [bind]. apply Hfr, HP.
Qed.

(** X1.  Geodetic to geocentric and back gives the latitude again, for a
    latitude strictly between the poles, in either unit; so does
    geocentric to geodetic and back. *)
Theorem geocentric_round_trip :
  forall (use_numpy : bool) (dflt : Ellipsoid) (ell : option Ellipsoid)
         (deg : bool) (phi : R),
    0 <= eccentricity (utils.resolve dflt ell) < 1 ->
    - (if deg then 90 else PI / 2) < phi < (if deg then 90 else PI / 2) ->
    let san := utils.sanitize dflt in
    bind (geodetic2geocentric use_numpy san (Fin phi) ell deg)
         (fun y => geocentric2geodetic use_numpy san y ell deg)
    = Ok (Fin phi)
    /\ bind (geocentric2geodetic use_numpy san (Fin phi) ell deg)
            (fun y => geodetic2geocentric use_numpy san y ell deg)
       = Ok (Fin phi).
Proof.
intros np dflt ell deg phi He Hphi san. subst san.
set (e := eccentricity (utils.resolve dflt ell)) in *.
assert (Hne : 1 - e ^ 2 <> 0) by nra.
assert (Hrad : - (PI / 2) < (if deg then phi * (PI / 180) else phi) < PI / 2).
{ destruct deg; [| exact Hphi].
  generalize PI_RGT_0; intros Hpi. split; nra. }
assert (Hfin : (if deg then phi * (PI / 180) * (180 / PI) else phi) = phi).
{ destruct deg; [apply deg_rad_inverse | reflexivity]. }
split.
- rewrite (compose_in_units
             (fun x d => geocentric2geodetic np (utils.sanitize dflt) x ell d)
             (fun x d => geodetic2geocentric np (utils.sanitize dflt) x ell d)
             (fun r => r) (atan_scaled_tan (1 - e ^ 2))
             (fun r => - (PI / 2) < r < PI / 2)).
  + now rewrite Hfin.
  + apply geodetic2geocentric_deg.
  + apply geocentric2geodetic_deg.
  + intros r _. apply geodetic2geocentric_run. exact He.
  + intros r Hr. rewrite geocentric2geodetic_run by exact He. fold e.
    now rewrite (proj1 (atan_scaled_tan_inverse (1 - e ^ 2) r Hne Hr)).
  + exact Hrad.
- rewrite (compose_in_units
             (fun x d => geodetic2geocentric np (utils.sanitize dflt) x ell d)
             (fun x d => geocentric2geodetic np (utils.sanitize dflt) x ell d)
             (fun r => r) (atan_scaled_tan (/ (1 - e ^ 2)))
             (fun r => - (PI / 2) < r < PI / 2)).
  + now rewrite Hfin.
  + apply geocentric2geodetic_deg.
  + apply geodetic2geocentric_deg.
  + intros r _. apply geocentric2geodetic_run. exact He.
  + intros r Hr. rewrite geodetic2geocentric_run by exact He. fold e.
    now rewrite (proj2 (atan_scaled_tan_inverse (1 - e ^ 2) r Hne Hr)).
  + exact Hrad.
Qed.

Lemma geocentric_round_trip_witness :
  0 <= eccentricity (utils.resolve wgs84_like None) < 1
  /\ - 90 < 45 < 90
  /\ bind (geodetic2geocentric false (utils.sanitize wgs84_like) (Fin 45) None true)
          (fun y => geocentric2geodetic false (utils.sanitize wgs84_like) y None true)
     = Ok (Fin 45).
Proof.
assert (He : 0 <= eccentricity (utils.resolve wgs84_like None) < 1)
  by (simpl; lra).
assert (Hphi : - 90 < 45 < 90) by lra.
split; [exact He |]. split; [exact Hphi |].
apply (geocentric_round_trip false wgs84_like None true 45 He Hphi).
Defined.

(** X2.  Geodetic to parametric and back gives the latitude again, for a
    latitude strictly between the poles, in either unit; so does
    parametric to geodetic and back. *)
Theorem parametric_round_trip :
  forall (use_numpy : bool) (dflt : Ellipsoid) (ell : option Ellipsoid)
         (deg : bool) (phi : R),
    0 <= eccentricity (utils.resolve dflt ell) < 1 ->
    - (if deg then 90 else PI / 2) < phi < (if deg then 90 else PI / 2) ->
    let san := utils.sanitize dflt in
    bind (geodetic2parametric use_numpy san (Fin phi) ell deg)
         (fun y => parametric2geodetic use_numpy san y ell deg)
    = Ok (Fin phi)
    /\ bind (parametric2geodetic use_numpy san (Fin phi) ell deg)
            (fun y => geodetic2parametric use_numpy san y ell deg)
       = Ok (Fin phi).
Proof.
intros np dflt ell deg phi He Hphi san. subst san.
set (e := eccentricity (utils.resolve dflt ell)) in *.
destruct (sqrt_one_minus_e2 dflt ell He) as [Hs _]. fold e in Hs.
assert (Hne : sqrt (1 - e ^ 2) <> 0) by lra.
assert (Hrad : - (PI / 2) < (if deg then phi * (PI / 180) else phi) < PI / 2).
{ destruct deg; [| exact Hphi].
  generalize PI_RGT_0; intros Hpi. split; nra. }
assert (Hfin : (if deg then phi * (PI / 180) * (180 / PI) else phi) = phi).
{ destruct deg; [apply deg_rad_inverse | reflexivity]. }
split.
- rewrite (compose_in_units
             (fun x d => parametric2geodetic np (utils.sanitize dflt) x ell d)
             (fun x d => geodetic2parametric np (utils.sanitize dflt) x ell d)
             (fun r => r) (atan_scaled_tan (sqrt (1 - e ^ 2)))
             (fun r => - (PI / 2) < r < PI / 2)).
  + now rewrite Hfin.
  + apply geodetic2parametric_deg.
  + apply parametric2geodetic_deg.
  + intros r _. apply geodetic2parametric_run. exact He.
  + intros r Hr. rewrite parametric2geodetic_run by exact He. fold e.
    now rewrite (proj1 (atan_scaled_tan_inverse (sqrt (1 - e ^ 2)) r Hne Hr)).
  + exact Hrad.
- rewrite (compose_in_units
             (fun x d => geodetic2parametric np (utils.sanitize dflt) x ell d)
             (fun x d => parametric2geodetic np (utils.sanitize dflt) x ell d)
             (fun r => r) (atan_scaled_tan (/ sqrt (1 - e ^ 2)))
             (fun r => - (PI / 2) < r < PI / 2)).
  + now rewrite Hfin.
  + apply parametric2geodetic_deg.
  + apply geodetic2parametric_deg.
  + intros r _. apply parametric2geodetic_run. exact He.
  + intros r Hr. rewrite geodetic2parametric_run by exact He. fold e.
    now rewrite (proj2 (atan_scaled_tan_inverse (sqrt (1 - e ^ 2)) r Hne Hr)).
  + exact Hrad.
Qed.

Lemma parametric_round_trip_witness :
  0 <= eccentricity (utils.resolve wgs84_like None) < 1
  /\ - (PI / 2) < 1 < PI / 2
  /\ bind (parametric2geodetic true (utils.sanitize wgs84_like) (Fin 1) None false)
          (fun y => geodetic2parametric true (utils.sanitize wgs84_like) y None false)
     = Ok (Fin 1).
Proof.
assert (He : 0 <= eccentricity (utils.resolve wgs84_like None) < 1)
  by (simpl; lra).
assert (Hphi : - (PI / 2) < 1 < PI / 2) by (generalize PI2_3_2; lra).
split; [exact He |]. split; [exact Hphi |].
apply (parametric_round_trip true wgs84_like None false 1 He Hphi).
Defined.

(** X3.  Applying [geodetic2parametric] twice is [geodetic2geocentric], and
    applying [parametric2geodetic] twice is [geocentric2geodetic], at every
    finite latitude and in either unit: the parametric latitude sits half
    way, as sqrt(1 - e^2) is to 1 - e^2. *)
Theorem parametric_twice_is_geocentric :
  forall (use_numpy : bool) (dflt : Ellipsoid) (ell : option Ellipsoid)
         (deg : bool) (phi : R),
    0 <= eccentricity (utils.resolve dflt ell) < 1 ->
    let san := utils.sanitize dflt in
    bind (geodetic2parametric use_numpy san (Fin phi) ell deg)
         (fun y => geodetic2parametric use_numpy san y ell deg)
    = geodetic2geocentric use_numpy san (Fin phi) ell deg
    /\ bind (parametric2geodetic use_numpy san (Fin phi) ell deg)
            (fun y => parametric2geodetic use_numpy san y ell deg)
       = geocentric2geodetic use_numpy san (Fin phi) ell deg.
Proof.
intros np dflt ell deg phi He san. subst san.
set (e := eccentricity (utils.resolve dflt ell)) in *.
destruct (sqrt_one_minus_e2 dflt ell He) as [Hs Hsq]. fold e in Hs, Hsq.
split.
- rewrite (compose_in_units
             (fun x d => geodetic2parametric np (utils.sanitize dflt) x ell d)
             (fun x d => geodetic2parametric np (utils.sanitize dflt) x ell d)
             (atan_scaled_tan (1 - e ^ 2))
             (atan_scaled_tan (sqrt (1 - e ^ 2)))
             (fun _ => True)).
  + destruct deg.
    * rewrite geodetic2geocentric_deg. unfold in_degrees.
      cbn [Py.radians Py.mul].
      rewrite geodetic2geocentric_run by exact He. reflexivity.
    * rewrite geodetic2geocentric_run by exact He. reflexivity.
  + apply geodetic2parametric_deg.
  + apply geodetic2parametric_deg.
  + intros r _. apply geodetic2parametric_run. exact He.
  + intros r _. rewrite geodetic2parametric_run by exact He. fold e.
    rewrite atan_scaled_tan_compose, Hsq. reflexivity.
  + exact I.
- rewrite (compose_in_units
             (fun x d => parametric2geodetic np (utils.sanitize dflt) x ell d)
             (fun x d => parametric2geodetic np (utils.sanitize dflt) x ell d)
             (atan_scaled_tan (/ (1 - e ^ 2)))
             (atan_scaled_tan (/ sqrt (1 - e ^ 2)))
             (fun _ => True)).
  + destruct deg.
    * rewrite geocentric2geodetic_deg. unfold in_degrees.
      cbn [Py.radians Py.mul].
      rewrite geocentric2geodetic_run by exact He. reflexivity.
    * rewrite geocentric2geodetic_run by exact He. reflexivity.
  + apply parametric2geodetic_deg.
  + apply parametric2geodetic_deg.
  + intros r _. apply parametric2geodetic_run. exact He.
  + intros r _. rewrite parametric2geodetic_run by exact He. fold e.
    rewrite atan_scaled_tan_compose, <- Rinv_mult, Hsq. reflexivity.
  + exact I.
Qed.

Lemma parametric_twice_is_geocentric_witness :
  0 <= eccentricity (utils.resolve wgs84_like None) < 1
  /\ bind (geodetic2parametric false (utils.sanitize wgs84_like) (Fin 60) None true)
          (fun y => geodetic2parametric false (utils.sanitize wgs84_like) y None true)
     = geodetic2geocentric false (utils.sanitize wgs84_like) (Fin 60) None true.
Proof.
assert (He : 0 <= eccentricity (utils.resolve wgs84_like None) < 1)
  by (simpl; lra).
split; [exact He |].
apply (parametric_twice_is_geocentric false wgs84_like None true 60 He).
Defined.

(** ** Isometric and conformal latitude *)

Section IsometricConformal.

Variable e phi : R.

Hypothesis He : 0 <= e < 1.
Hypothesis Hphi : - (PI / 2) < phi < PI / 2.

Let s := sin phi.
Let c := cos phi.
Let A := (1 + s) / c.

Lemma sin_cos_between_poles : 0 < c /\ -1 < s < 1 /\ c * c = (1 - s) * (1 + s).
Proof.
assert (Hc : 0 < c) by (apply cos_gt_0; lra).
generalize (sin2_cos2 phi). unfold Rsqr. fold s c. intros Hsc.
repeat split; nra.
Qed.

Lemma half_angle_ratio : 0 < A /\ / A = (1 - s) / c /\ (1 + s) / (1 - s) = A * A.
Proof.
destruct sin_cos_between_poles as (Hc & Hs & Hsc).
assert (HA : 0 < A) by (apply Rdiv_lt_0_compat; lra).
assert (H1 : A * ((1 - s) / c) = 1).
{ unfold A.
  replace ((1 + s) / c * ((1 - s) / c)) with ((1 - s) * (1 + s) / (c * c))
    by (field; lra).
  rewrite <- Hsc. field. lra. }
repeat split.
- exact HA.
- apply Rmult_eq_reg_l with A; [| lra].
  rewrite Rinv_r by lra. symmetry. exact H1.
- unfold A.
  replace ((1 + s) / c * ((1 + s) / c)) with ((1 + s) * (1 + s) / (c * c))
    by (field; lra).
  rewrite Hsc. field. lra.
Qed.

Lemma arcsinh_tan : arcsinh (tan phi) = ln A.
Proof.
destruct sin_cos_between_poles as (Hc & Hs & Hsc).
destruct half_angle_ratio as (HA & Hinv & _).
rewrite <- (arcsinh_sinh (ln A)). f_equal.
unfold sinh. rewrite exp_Ropp, exp_ln, Hinv by exact HA.
unfold tan, A. fold s c. field. lra.
Qed.

Lemma exp_isometric_forward :
  exp (Spec.isometric_forward e phi) = conformal_arg e (sin phi).
Proof.
destruct sin_cos_between_poles as (Hc & Hs & Hsc).
destruct half_angle_ratio as (HA & _ & Hsq).
assert (Hes : -1 < e * s < 1) by nra.
set (B := (1 - e * s) / (1 + e * s)).
assert (HB : 0 < B) by (apply Rdiv_lt_0_compat; lra).
unfold Spec.isometric_forward, conformal_arg. fold s B.
rewrite sqrt_mult.
- rewrite Hsq, sqrt_square by lra.
  rewrite <- Rpower_sqrt by apply exp_pos.
  rewrite Rpower_mult.
  unfold Rminus. rewrite exp_plus, arcsinh_tan, exp_ln by exact HA.
  f_equal. unfold Rpower, Py.arctanh. f_equal.
  replace ((1 + e * s) / (1 - e * s)) with (/ B) by (unfold B; field; lra).
  rewrite ln_Rinv by exact HB. field.
- rewrite Hsq. nra.
- apply Rlt_le, exp_pos.
Qed.

End IsometricConformal.

(** The isometric latitude of a latitude farther than the tolerance from
    the poles is far below the overflow of [exp]. *)

Lemma sin_doubling (k : nat) (y : R) :
  0 <= y -> 2 ^ k * y <= PI -> sin (2 ^ k * y) <= 2 ^ k * sin y.
Proof.
intros Hy. induction k as [| k IH]; intros Hk.
- simpl. rewrite !Rmult_1_l. lra.
- assert (Hp : 0 < 2 ^ k) by (apply pow_lt; lra).
  replace (2 ^ S k * y) with (2 * (2 ^ k * y)) in * by (simpl; ring).
  assert (Hx : 0 <= 2 ^ k * y) by nra.
  rewrite sin_2a.
  generalize (IH ltac:(lra)) (sin_ge_0 (2 ^ k * y) Hx ltac:(lra))
             (COS_bound (2 ^ k * y)).
  simpl. nra.
Qed.

Lemma sin_tolerance : / 2 ^ 31 <= sin 1e-9.
Proof.
generalize PI2_3_2 PI_4; intros Hlo Hhi.
assert (Hhalf : 1 / 2 <= sin (2 ^ 30 * 1e-9)).
{ rewrite <- sin_PI6. apply sin_incr_1; lra. }
generalize (sin_doubling 30 1e-9 ltac:(lra) ltac:(lra)). intros Hd.
assert (Hp : 0 < 2 ^ 30) by (apply pow_lt; lra).
apply Rmult_le_reg_l with (2 ^ 31); [apply pow_lt; lra |].
rewrite Rinv_r by (apply pow_nonzero; lra).
change (2 ^ 31) with (2 * 2 ^ 30). lra.
Qed.

Lemma exp_isometric_forward_in_range (e phi : R) :
  0 <= e < 1 ->
  1e-9 - PI / 2 < phi < PI / 2 - 1e-9 ->
  exp (Spec.isometric_forward e phi) <= Py.dbl_max.
Proof.
intros He Hphi.
assert (Hb : - (PI / 2) < phi < PI / 2) by lra.
rewrite (exp_isometric_forward e phi He Hb). unfold conformal_arg.
destruct (sin_cos_between_poles phi Hb) as (Hc & Hs & Hsc).
destruct (half_angle_ratio phi Hb) as (HA & _ & Hsq).
set (s := sin phi) in *. set (c := cos phi) in *.
set (A := (1 + s) / c) in *.
set (B := (1 - e * s) / (1 + e * s)).
assert (Hp : 0 < Rpower B e) by apply exp_pos.
destruct (Rle_dec 0 phi) as [Hnorth | Hsouth].
- (* north: the power is at most 1 and the rest is at most 2 / cos phi *)
  assert (Hs0 : 0 <= s) by (apply sin_ge_0; lra).
  assert (HB : 0 < B <= 1).
  { unfold B. split; [apply Rdiv_lt_0_compat; nra |].
    apply Rmult_le_reg_r with (1 + e * s); [nra |].
    unfold Rdiv. rewrite Rmult_assoc, Rinv_l by nra. nra. }
  assert (Hpow : Rpower B e <= 1).
  { replace 1 with (Rpower 1 e)
      by (unfold Rpower; now rewrite ln_1, Rmult_0_r, exp_0).
    apply Rle_Rpower_l; lra. }
  assert (Hcos : / 2 ^ 31 <= c).
  { apply Rle_trans with (sin 1e-9); [apply sin_tolerance |].
    unfold c. rewrite <- (sin_shift phi). apply sin_incr_1; lra. }
  assert (Hinv : / c <= 2 ^ 31).
  { rewrite <- (Rinv_inv (2 ^ 31)). apply Rinv_le_contravar; [| exact Hcos].
    apply Rinv_0_lt_compat, pow_lt. lra. }
  apply Rle_trans with A.
  + rewrite <- (sqrt_square A) by lra. apply sqrt_le_1_alt.
    rewrite Hsq. nra.
  + apply Rle_trans with (2 ^ 32);
      [| apply small_power_in_range; repeat constructor].
    change (2 ^ 32) with (2 * 2 ^ 31). unfold A, Rdiv.
    assert (Hic : 0 < / c) by now apply Rinv_0_lt_compat.
    nra.
- (* south: the whole product is at most 1 *)
  assert (Hs0 : s < 0) by (apply sin_lt_0_var; lra).
  assert (Hd : 0 < 1 + e * s) by nra.
  assert (HB : 1 <= B).
  { unfold B. apply Rmult_le_reg_r with (1 + e * s); [exact Hd |].
    unfold Rdiv. rewrite Rmult_assoc, Rinv_l by lra. nra. }
  assert (Hpow : Rpower B e <= B).
  { rewrite <- (Rpower_1 B) at 2 by lra. apply Rle_Rpower; lra. }
  assert (Hprod : (1 + s) / (1 - s) * B <= 1).
  { unfold B.
    replace ((1 + s) / (1 - s) * ((1 - e * s) / (1 + e * s)))
      with ((1 + s) * (1 - e * s) / ((1 - s) * (1 + e * s)))
      by (field; lra).
    apply Rmult_le_reg_r with ((1 - s) * (1 + e * s)); [nra |].
    unfold Rdiv. rewrite Rmult_assoc, Rinv_l by nra. nra. }
  apply Rle_trans with (sqrt 1).
  + apply sqrt_le_1_alt.
    assert (Hq : 0 < (1 + s) / (1 - s)) by (apply Rdiv_lt_0_compat; lra).
    apply Rle_trans with ((1 + s) / (1 - s) * B); [| exact Hprod].
    apply Rmult_le_compat_l; lra.
  + rewrite sqrt_1. apply Rle_trans with (2 ^ 0);
      [simpl; lra | apply small_power_in_range, Nat.le_0_l].
Qed.

Section IsometricRuns.

Variable use_numpy : bool.
Variable dflt : Ellipsoid.
Variable ell : option Ellipsoid.

Let san := utils.sanitize dflt.
Let e := eccentricity (utils.resolve dflt ell).

Lemma geodetic2isometric_deg (x : pyfloat) :
  geodetic2isometric use_numpy san x ell true
  = in_degrees (fun y => geodetic2isometric use_numpy san y ell false) x.
Proof.
unfold in_degrees, san. rewrite !geodetic2isometric_unfold.
apply geodetic2isometric_point_deg.
Qed.

Lemma geodetic2conformal_deg (x : pyfloat) :
  geodetic2conformal use_numpy san x ell true
  = in_degrees (fun y => geodetic2conformal use_numpy san y ell false) x.
Proof.
unfold in_degrees, san. rewrite !geodetic2conformal_unfold.
apply geodetic2conformal_point_deg.
Qed.

Lemma isometric2geodetic_run (psi : R) :
  exp psi <= Py.dbl_max ->
  isometric2geodetic use_numpy san (Fin psi) ell false
  = Ok (Fin (Spec.conformal_inverse e (Spec.isometric_to_conformal psi))).
Proof.
intros Hpsi. rewrite isometric2geodetic_unfold.
rewrite conformal_of_isometric_Fin by exact Hpsi. reflexivity.
Qed.

Lemma conformal2geodetic_run (chi : R) :
  conformal2geodetic use_numpy san (Fin chi) ell false
  = Ok (Fin (Spec.conformal_inverse e chi)).
Proof. reflexivity. Qed.

Lemma isometric2geodetic_inf (deg : bool) :
  isometric2geodetic use_numpy san PInf ell deg
  = Ok (Fin (if deg then 90 else PI / 2))
  /\ isometric2geodetic use_numpy san NInf ell deg
     = Ok (Fin (- (if deg then 90 else PI / 2))).
Proof.
destruct (conformal_of_isometric_inf use_numpy) as [Hp Hn].
destruct radians_inf as [Hrp Hrn].
destruct (conformal2geodetic_poles use_numpy dflt ell) as [Hcp Hcn].
unfold san.
split; rewrite isometric2geodetic_unfold; destruct deg;
  rewrite ?Hrp, ?Hrn, ?Hp, ?Hn; cbn [bind]; rewrite ?Hcp, ?Hcn;
  cbn; try reflexivity;
  do 2 f_equal; field; apply PI_neq0.
Qed.

End IsometricRuns.

(** X4.  Away from the poles by more than the tolerance, geodetic to
    isometric and back is the same value as geodetic to conformal and
    back: the conformal latitude that [isometric2geodetic] computes from
    the isometric latitude is the one [geodetic2conformal] returns. *)
Theorem isometric_and_conformal_round_trips_agree :
  forall (use_numpy : bool) (dflt : Ellipsoid) (ell : option Ellipsoid)
         (deg : bool) (phi : R),
    0 <= eccentricity (utils.resolve dflt ell) < 1 ->
    1e-9 - PI / 2 < (if deg then phi * (PI / 180) else phi) < PI / 2 - 1e-9 ->
    let san := utils.sanitize dflt in
    bind (geodetic2isometric use_numpy san (Fin phi) ell deg)
         (fun y => isometric2geodetic use_numpy san y ell deg)
    = bind (geodetic2conformal use_numpy san (Fin phi) ell deg)
           (fun y => conformal2geodetic use_numpy san y ell deg).
Proof.
intros np dflt ell deg phi He Hphi san. subst san.
set (e := eccentricity (utils.resolve dflt ell)) in *.
set (P := fun r : R => 1e-9 - PI / 2 < r < PI / 2 - 1e-9).
set (F := fun r : R => Spec.conformal_inverse e (Spec.conformal_forward e r)).
rewrite (compose_in_units
           (fun x d => isometric2geodetic np (utils.sanitize dflt) x ell d)
           (fun x d => geodetic2isometric np (utils.sanitize dflt) x ell d)
           F (Spec.isometric_forward e) P).
- rewrite (compose_in_units
             (fun x d => conformal2geodetic np (utils.sanitize dflt) x ell d)
             (fun x d => geodetic2conformal np (utils.sanitize dflt) x ell d)
             F (Spec.conformal_forward e) P).
  + reflexivity.
  + apply geodetic2conformal_deg.
  + apply conformal2geodetic_deg.
  + intros r Hr. unfold P in Hr.
    rewrite geodetic2conformal_unfold.
    apply conformal_regular; [exact He |].
    assert (Hb : - (PI / 2) < r < PI / 2) by lra.
    destruct (sin_cos_between_poles r Hb) as (_ & Hs & _). lra.
  + intros r _. apply conformal2geodetic_run.
  + exact Hphi.
- apply geodetic2isometric_deg.
- apply isometric2geodetic_deg.
- intros r Hr. unfold P in Hr.
  rewrite geodetic2isometric_unfold.
  apply isometric_regular; [exact He | |].
  + rewrite Rabs_left by lra. lra.
  + rewrite Rabs_right by lra. lra.
- intros r Hr. unfold P in Hr.
  rewrite isometric2geodetic_run
    by (apply exp_isometric_forward_in_range; assumption).
  fold e. unfold F.
  do 3 f_equal. unfold Spec.isometric_to_conformal.
  rewrite exp_isometric_forward by (try exact He; lra).
  reflexivity.
- exact Hphi.
Qed.

Lemma isometric_and_conformal_round_trips_agree_witness :
  0 <= eccentricity (utils.resolve wgs84_like None) < 1
  /\ 1e-9 - PI / 2 < 1 < PI / 2 - 1e-9
  /\ bind (geodetic2isometric false (utils.sanitize wgs84_like) (Fin 1) None false)
          (fun y => isometric2geodetic false (utils.sanitize wgs84_like) y None false)
     = bind (geodetic2conformal false (utils.sanitize wgs84_like) (Fin 1) None false)
            (fun y => conformal2geodetic false (utils.sanitize wgs84_like) y None false).
Proof.
assert (He : 0 <= eccentricity (utils.resolve wgs84_like None) < 1)
  by (simpl; lra).
assert (Hphi : 1e-9 - PI / 2 < 1 < PI / 2 - 1e-9) by (generalize PI2_3_2; lra).
split; [exact He |]. split; [exact Hphi |].
apply (isometric_and_conformal_round_trips_agree
         false wgs84_like None false 1 He Hphi).
Defined.

(** X5.  A latitude within the tolerance 1e-9 (radians) of a pole comes
    back from the isometric round trip as the pole itself: PI/2 or 90
    degrees in the north, the opposite in the south, on any ellipsoid. *)
Theorem isometric_round_trip_snaps_to_pole :
  forall (use_numpy : bool) (dflt : Ellipsoid) (ell : option Ellipsoid)
         (deg : bool) (phi : R),
    let san := utils.sanitize dflt in
    let lat := if deg then phi * (PI / 180) else phi in
    let pole := if deg then 90 else PI / 2 in
    (Rabs (lat - PI / 2) <= 1e-9 ->
     bind (geodetic2isometric use_numpy san (Fin phi) ell deg)
          (fun y => isometric2geodetic use_numpy san y ell deg)
     = Ok (Fin pole))
    /\ (Rabs (lat + PI / 2) <= 1e-9 ->
        bind (geodetic2isometric use_numpy san (Fin phi) ell deg)
             (fun y => isometric2geodetic use_numpy san y ell deg)
        = Ok (Fin (- pole))).
Proof.
intros np dflt ell deg phi san lat pole. subst san lat pole.
destruct degrees_inf as [Hdp Hdn].
split; intros Hnear; destruct deg.
- rewrite geodetic2isometric_deg. unfold in_degrees.
  cbn [Py.radians Py.mul].
  rewrite geodetic2isometric_unfold, isometric_north_pole by exact Hnear.
  cbn [bind]. rewrite Hdp. apply (isometric2geodetic_inf np dflt ell true).
- rewrite geodetic2isometric_unfold, isometric_north_pole by exact Hnear.
  apply (isometric2geodetic_inf np dflt ell false).
- rewrite geodetic2isometric_deg. unfold in_degrees.
  cbn [Py.radians Py.mul].
  rewrite geodetic2isometric_unfold, isometric_south_pole by exact Hnear.
  cbn [bind]. rewrite Hdn. apply (isometric2geodetic_inf np dflt ell true).
- rewrite geodetic2isometric_unfold, isometric_south_pole by exact Hnear.
  apply (isometric2geodetic_inf np dflt ell false).
Qed.

Lemma isometric_round_trip_snaps_to_pole_witness :
  Rabs (PI / 2 - 1e-10 - PI / 2) <= 1e-9
  /\ bind (geodetic2isometric true (utils.sanitize wgs84_like)
             (Fin (PI / 2 - 1e-10)) None false)
          (fun y => isometric2geodetic true (utils.sanitize wgs84_like) y None false)
     = Ok (Fin (PI / 2)).
Proof.
assert (Hnear : Rabs (PI / 2 - 1e-10 - PI / 2) <= 1e-9).
{ rewrite Rabs_left by lra. lra. }
split; [exact Hnear |].
apply (isometric_round_trip_snaps_to_pole
         true wgs84_like None false (PI / 2 - 1e-10)).
exact Hnear.
Defined.

(** ** Infinite and not-a-number input *)

Ltac unfold_conversions :=
  unfold geodetic2isometric, geodetic2conformal, vectorize,
    geodetic2isometric_point, geodetic2conformal_point, isometric2geodetic,
    geodetic2geocentric, geocentric2geodetic, geodetic2rectifying,
    rectifying2geodetic, geodetic2authalic, authalic2geodetic,
    geodetic2parametric, parametric2geodetic, conformal2geodetic,
    utils.sanitize.

Ltac split_tests :=
  repeat (match goal with
          | |- context [if ?b then _ else _] =>
              lazymatch type of b with sumbool _ _ => destruct b end
          | |- context [if ?b then _ else _] => destruct b
          end; cbn).

(** X6.  Given plus or minus infinity, each conversion but
    [isometric2geodetic] raises [ValueError] when the [math] functions are
    in use and returns [nan] under numpy, in either unit and on any
    ellipsoid. *)
Theorem infinite_latitude_is_a_domain_error :
  forall (use_numpy : bool) (dflt : Ellipsoid) (ell : option Ellipsoid)
         (deg : bool) (x : pyfloat) (f : conversion),
    x = PInf \/ x = NInf ->
    In f all_conversions ->
    f <> isometric2geodetic ->
    f use_numpy (utils.sanitize dflt) x ell deg
    = if use_numpy then Ok NaN else Raise ValueError.
Proof.
intros np dflt ell deg x f Hx Hin Hf.
destruct radians_inf as [Hrp Hrn].
simpl in Hin.
repeat (destruct Hin as [<- | Hin]); try contradiction;
  try (exfalso; apply Hf; reflexivity);
  destruct Hx as [-> | ->]; destruct np, deg;
  unfold_conversions; cbn [bind]; rewrite ?Hrp, ?Hrn;
  cbn -[Py.inf_of_sign pow];
  rewrite ?(inf_of_sign_pos 2), ?(inf_of_sign_pos 4), ?(inf_of_sign_pos 6),
    ?(inf_of_sign_pos 8), ?(inf_of_sign_neg (- (2))),
    ?(inf_of_sign_neg (- (4))), ?(inf_of_sign_neg (- (6))),
    ?(inf_of_sign_neg (- (8))) by lra;
  cbn; unfold Py.pow, Py.sqrt, Py.div; cbn; split_tests; reflexivity.
Qed.

Lemma infinite_latitude_is_a_domain_error_witness :
  (PInf = PInf \/ PInf = NInf)
  /\ geodetic2rectifying false (utils.sanitize wgs84_like) PInf None true
     = Raise ValueError.
Proof.
assert (Hx : PInf = PInf \/ PInf = NInf) by (left; reflexivity).
split; [exact Hx |].
apply (infinite_latitude_is_a_domain_error
         false wgs84_like None true PInf geodetic2rectifying Hx).
- simpl. tauto.
- intros Heq.
  apply (f_equal (fun f => f false radians_only_sanitize NaN None true))
    in Heq.
  cbn in Heq. discriminate Heq.
Defined.

(** X7.  Not-a-number goes through every conversion without an
    exception: on an ellipsoid with eccentricity in [0, 1) each of the
    twelve returns [nan] for [nan], in either unit and with either set of
    numeric functions. *)
Theorem nan_propagates :
  forall (use_numpy : bool) (dflt : Ellipsoid) (ell : option Ellipsoid)
         (deg : bool) (f : conversion),
    0 <= eccentricity (utils.resolve dflt ell) < 1 ->
    In f all_conversions ->
    f use_numpy (utils.sanitize dflt) NaN ell deg = Ok NaN.
Proof.
intros np dflt ell deg f He Hin.
set (e := eccentricity (utils.resolve dflt ell)) in *.
assert (Hs : 0 < sqrt (1 - e ^ 2)) by (apply sqrt_lt_R0; nra).
simpl in Hin.
repeat (destruct Hin as [<- | Hin]); try contradiction;
  destruct np, deg; unfold_conversions; cbn -[Py.sqrt Py.div pow]; fold e;
  rewrite ?sqrt_Fin by nra; cbn -[Py.div pow];
  unfold Py.div, Py.pow; cbn -[pow]; split_tests;
  first [reflexivity | exfalso; nra | exfalso; lra].
Qed.

Lemma nan_propagates_witness :
  0 <= eccentricity (utils.resolve wgs84_like None) < 1
  /\ geodetic2isometric false (utils.sanitize wgs84_like) NaN None true = Ok NaN.
Proof.
assert (He : 0 <= eccentricity (utils.resolve wgs84_like None) < 1)
  by (simpl; lra).
split; [exact He |].
apply (nan_propagates false wgs84_like None true geodetic2isometric He).
simpl. tauto.
Defined.

(** X8.  Where [isometric2geodetic] stops returning.  For a finite input
    whose exponential (input taken in radians) is within the range of a
    double it returns a real number.  Beyond that it raises
    [OverflowError] when the [math] functions are in use, and under numpy
    returns the pole, PI/2 or 90 degrees, as it does for plus infinity. *)
Theorem isometric2geodetic_overflow :
  forall (use_numpy : bool) (dflt : Ellipsoid) (ell : option Ellipsoid)
         (deg : bool) (psi : R),
    let lat := if deg then psi * (PI / 180) else psi in
    (exp lat <= Py.dbl_max ->
     exists r : R,
       isometric2geodetic use_numpy (utils.sanitize dflt) (Fin psi) ell deg
       = Ok (Fin r))
    /\ (Py.dbl_max < exp lat ->
        isometric2geodetic use_numpy (utils.sanitize dflt) (Fin psi) ell deg
        = if use_numpy then Ok (Fin (if deg then 90 else PI / 2))
          else Raise OverflowError).
Proof.
intros np dflt ell deg psi lat. subst lat.
destruct (conformal2geodetic_poles np dflt ell) as [Hcp _].
split; intros Hrange; rewrite isometric2geodetic_unfold.
- destruct deg; cbn [Py.radians Py.mul];
    rewrite conformal_of_isometric_Fin by exact Hrange;
    eexists; reflexivity.
- destruct deg; cbn [Py.radians Py.mul];
    rewrite conformal_of_isometric_overflow by exact Hrange;
    destruct np; try reflexivity; cbn [bind]; rewrite Hcp; cbn;
    try reflexivity.
  do 2 f_equal. field. apply PI_neq0.
Qed.

Lemma isometric2geodetic_overflow_witness :
  exp 1 <= Py.dbl_max
  /\ Py.dbl_max < exp 1100
  /\ (exists r : R,
        isometric2geodetic false (utils.sanitize wgs84_like) (Fin 1) None false
        = Ok (Fin r))
  /\ isometric2geodetic false (utils.sanitize wgs84_like) (Fin 1100) None false
     = Raise OverflowError
  /\ isometric2geodetic true (utils.sanitize wgs84_like) (Fin 1100) None false
     = Ok (Fin (PI / 2)).
Proof.
split; [exact exp_1_in_range |].
split; [exact exp_1100_overflows |].
split; [| split].
- exact (proj1 (isometric2geodetic_overflow false wgs84_like None false 1)
           exp_1_in_range).
- exact (proj2 (isometric2geodetic_overflow false wgs84_like None false 1100)
           exp_1100_overflows).
- exact (proj2 (isometric2geodetic_overflow true wgs84_like None false 1100)
           exp_1100_overflows).
Defined.

(** ** Range of the closed-form conversions *)







(** X10.  For each of the twelve conversions and every input, the call in
    degrees is the call in radians on the input converted to radians, with
    its result converted to degrees; an exception of the one is an
    exception of the other. *)
Theorem degrees_follow_radians :
  forall (use_numpy : bool) (dflt : Ellipsoid) (ell : option Ellipsoid)
         (x : pyfloat) (f : conversion),
    In f all_conversions ->
    f use_numpy (utils.sanitize dflt) x ell true
    = bind (f use_numpy (utils.sanitize dflt) (Py.radians x) ell false)
           (fun v => Ok (Py.degrees v)).
Proof.
intros np dflt ell x f Hin. simpl in Hin.
repeat (destruct Hin as [<- | Hin]); try contradiction.
- apply geodetic2isometric_deg.
- apply isometric2geodetic_deg.
- apply geodetic2rectifying_deg.
- apply rectifying2geodetic_deg.
- apply geodetic2conformal_deg.
- apply conformal2geodetic_deg.
- apply geodetic2parametric_deg.
- apply parametric2geodetic_deg.
- apply geodetic2geocentric_deg.
- apply geocentric2geodetic_deg.
- apply geodetic2authalic_deg.
- apply authalic2geodetic_deg.
Qed.

Lemma degrees_follow_radians_witness :
  In geodetic2authalic all_conversions
  /\ geodetic2authalic true (utils.sanitize wgs84_like) (Fin 45) None true
     = bind (geodetic2authalic true (utils.sanitize wgs84_like)
               (Py.radians (Fin 45)) None false)
            (fun v => Ok (Py.degrees v)).
Proof.
assert (Hin : In geodetic2authalic all_conversions) by (simpl; tauto).
split; [exact Hin |].
apply (degrees_follow_radians true wgs84_like None (Fin 45) geodetic2authalic Hin).
Defined.

(** ** The sphere *)

Lemma gudermannian (phi : R) :
  - (PI / 2) < phi < PI / 2 ->
  2 * atan ((1 + sin phi) / cos phi) - PI / 2 = phi.
Proof.
intros Hphi.
set (u := PI / 4 + phi / 2).
assert (Hu : 0 < u < PI / 2) by (unfold u; lra).
assert (Hsu : 0 < sin u) by (apply sin_gt_0; lra).
assert (Hcu : 0 < cos u) by (apply cos_gt_0; lra).
assert (Htan : (1 + sin phi) / cos phi = tan u).
{ replace phi with (- (PI / 2 - 2 * u)) by (unfold u; lra).
  rewrite sin_neg, cos_neg, sin_shift, cos_shift, cos_2a_sin, sin_2a.
  unfold tan. field. lra. }
rewrite Htan, atan_tan by lra. unfold u. lra.
Qed.

Lemma conformal_forward_sphere (phi : R) :
  - (PI / 2) < phi < PI / 2 -> Spec.conformal_forward 0 phi = phi.
Proof.
intros Hphi.
assert (He : 0 <= 0 < 1) by lra.
destruct (half_angle_ratio phi Hphi) as (HA & _ & _).
change (Spec.conformal_forward 0 phi)
  with (2 * atan (conformal_arg 0 (sin phi)) - PI / 2).
rewrite <- (exp_isometric_forward 0 phi He Hphi).
unfold Spec.isometric_forward.
rewrite Rmult_0_l, Rminus_0_r, (arcsinh_tan phi Hphi), exp_ln by exact HA.
now apply gudermannian.
Qed.

Lemma identity_in_units
    (f : pyfloat -> bool -> result pyfloat) (P : R -> Prop) :
  (forall x, f x true = in_degrees (fun y => f y false) x) ->
  (forall r, P r -> f (Fin r) false = Ok (Fin r)) ->
  forall (deg : bool) (phi : R),
    P (if deg then phi * (PI / 180) else phi) ->
    f (Fin phi) deg = Ok (Fin phi).
Proof.
intros Hdeg Hrun [] phi HP.
- rewrite Hdeg. unfold in_degrees. cbn [Py.radians Py.mul].
  rewrite (Hrun _ HP). cbn [bind Py.degrees Py.mul].
  now rewrite deg_rad_inverse.
- now apply Hrun.
Qed.

Ltac series_on_sphere :=
  intros r _; unfold_conversions; cbn -[pow];
  match goal with
  | H : eccentricity _ = 0 |- _ => rewrite ?H
  end;
  match goal with
  | H : thirdflattening _ = 0 |- _ => rewrite ?H
  end;
  do 2 f_equal; field.

(** X11.  On a sphere (eccentricity and third flattening 0) the ten
    conversions other than the isometric pair return the latitude they are
    given, for a latitude strictly between the poles and in either unit. *)
Theorem on_a_sphere_latitudes_coincide :
  forall (use_numpy : bool) (dflt : Ellipsoid) (ell : option Ellipsoid)
         (deg : bool) (phi : R) (f : conversion),
    eccentricity (utils.resolve dflt ell) = 0 ->
    thirdflattening (utils.resolve dflt ell) = 0 ->
    - (if deg then 90 else PI / 2) < phi < (if deg then 90 else PI / 2) ->
    In f [geodetic2rectifying; rectifying2geodetic; geodetic2conformal;
          conformal2geodetic; geodetic2parametric; parametric2geodetic;
          geodetic2geocentric; geocentric2geodetic; geodetic2authalic;
          authalic2geodetic] ->
    f use_numpy (utils.sanitize dflt) (Fin phi) ell deg = Ok (Fin phi).
Proof.
intros np dflt ell deg phi f He0 Hn0 Hphi Hin.
assert (He : 0 <= eccentricity (utils.resolve dflt ell) < 1)
  by (rewrite He0; lra).
set (P := fun r : R => - (PI / 2) < r < PI / 2).
assert (Hrad : P (if deg then phi * (PI / 180) else phi)).
{ unfold P. destruct deg; [| exact Hphi].
  generalize PI_RGT_0; intros Hpi. split; nra. }
simpl in Hin.
repeat (destruct Hin as [<- | Hin]); try contradiction.
- apply (identity_in_units
           (fun x d => geodetic2rectifying np (utils.sanitize dflt) x ell d) P);
    [apply geodetic2rectifying_deg | series_on_sphere | exact Hrad].
- apply (identity_in_units
           (fun x d => rectifying2geodetic np (utils.sanitize dflt) x ell d) P);
    [apply rectifying2geodetic_deg | series_on_sphere | exact Hrad].
- apply (identity_in_units
           (fun x d => geodetic2conformal np (utils.sanitize dflt) x ell d) P);
    [apply geodetic2conformal_deg | | exact Hrad].
  intros r Hr. unfold P in Hr.
  rewrite geodetic2conformal_unfold, conformal_regular.
  + rewrite He0, conformal_forward_sphere by exact Hr. reflexivity.
  + exact He.
  + destruct (sin_cos_between_poles r Hr) as (_ & Hs & _). lra.
- apply (identity_in_units
           (fun x d => conformal2geodetic np (utils.sanitize dflt) x ell d) P);
    [apply conformal2geodetic_deg | series_on_sphere | exact Hrad].
- apply (identity_in_units
           (fun x d => geodetic2parametric np (utils.sanitize dflt) x ell d) P);
    [apply geodetic2parametric_deg | | exact Hrad].
  intros r Hr. rewrite geodetic2parametric_run by exact He.
  rewrite He0. replace (1 - 0 ^ 2) with 1 by ring.
  rewrite sqrt_1, atan_scaled_tan_one by exact Hr. reflexivity.
- apply (identity_in_units
           (fun x d => parametric2geodetic np (utils.sanitize dflt) x ell d) P);
    [apply parametric2geodetic_deg | | exact Hrad].
  intros r Hr. rewrite parametric2geodetic_run by exact He.
  rewrite He0. replace (1 - 0 ^ 2) with 1 by ring.
  rewrite sqrt_1, Rinv_1, atan_scaled_tan_one by exact Hr. reflexivity.
- apply (identity_in_units
           (fun x d => geodetic2geocentric np (utils.sanitize dflt) x ell d) P);
    [apply geodetic2geocentric_deg | | exact Hrad].
  intros r Hr. rewrite geodetic2geocentric_run by exact He.
  rewrite He0. replace (1 - 0 ^ 2) with 1 by ring.
  rewrite atan_scaled_tan_one by exact Hr. reflexivity.
- apply (identity_in_units
           (fun x d => geocentric2geodetic np (utils.sanitize dflt) x ell d) P);
    [apply geocentric2geodetic_deg | | exact Hrad].
  intros r Hr. rewrite geocentric2geodetic_run by exact He.
  rewrite He0. replace (1 - 0 ^ 2) with 1 by ring.
  rewrite Rinv_1, atan_scaled_tan_one by exact Hr. reflexivity.
- apply (identity_in_units
           (fun x d => geodetic2authalic np (utils.sanitize dflt) x ell d) P);
    [apply geodetic2authalic_deg | series_on_sphere | exact Hrad].
- apply (identity_in_units
           (fun x d => authalic2geodetic np (utils.sanitize dflt) x ell d) P);
    [apply authalic2geodetic_deg | series_on_sphere | exact Hrad].
Qed.

Lemma on_a_sphere_latitudes_coincide_witness :
  eccentricity (utils.resolve (mkEllipsoid 0 0) None) = 0
  /\ thirdflattening (utils.resolve (mkEllipsoid 0 0) None) = 0
  /\ - 90 < 30 < 90
  /\ geodetic2conformal false (utils.sanitize (mkEllipsoid 0 0)) (Fin 30) None true
     = Ok (Fin 30).
Proof.
assert (Hphi : - 90 < 30 < 90) by lra.
split; [reflexivity |]. split; [reflexivity |]. split; [exact Hphi |].
apply (on_a_sphere_latitudes_coincide false (mkEllipsoid 0 0) None true 30
         geodetic2conformal eq_refl eq_refl Hphi).
simpl. tauto.
Defined.

(** X12.  On a sphere, geodetic to isometric and back gives the latitude
    again, for a latitude between the poles and farther than the tolerance
    from both, in either unit. *)
Theorem isometric_round_trip_on_a_sphere :
  forall (use_numpy : bool) (dflt : Ellipsoid) (ell : option Ellipsoid)
         (deg : bool) (phi : R),
    eccentricity (utils.resolve dflt ell) = 0 ->
    1e-9 - PI / 2 < (if deg then phi * (PI / 180) else phi) < PI / 2 - 1e-9 ->
    let san := utils.sanitize dflt in
    bind (geodetic2isometric use_numpy san (Fin phi) ell deg)
         (fun y => isometric2geodetic use_numpy san y ell deg)
    = Ok (Fin phi).
Proof.
intros np dflt ell deg phi He0 Hphi san. subst san.
assert (He : 0 <= eccentricity (utils.resolve dflt ell) < 1)
  by (rewrite He0; lra).
set (P := fun r : R => 1e-9 - PI / 2 < r < PI / 2 - 1e-9).
rewrite (compose_in_units
           (fun x d => isometric2geodetic np (utils.sanitize dflt) x ell d)
           (fun x d => geodetic2isometric np (utils.sanitize dflt) x ell d)
           (fun r => r) (Spec.isometric_forward 0) P).
- destruct deg; [now rewrite deg_rad_inverse | reflexivity].
- apply geodetic2isometric_deg.
- apply isometric2geodetic_deg.
- intros r Hr. unfold P in Hr.
  rewrite geodetic2isometric_unfold, isometric_regular, He0.
  + reflexivity.
  + exact He.
  + rewrite Rabs_left by lra. lra.
  + rewrite Rabs_right by lra. lra.
- intros r Hr. unfold P in Hr.
  assert (Hb : - (PI / 2) < r < PI / 2) by lra.
  assert (H01 : 0 <= 0 < 1) by lra.
  rewrite isometric2geodetic_run
    by (apply exp_isometric_forward_in_range; assumption).
  rewrite He0. unfold Spec.isometric_to_conformal.
  rewrite (exp_isometric_forward 0 r H01 Hb).
  change (2 * atan (conformal_arg 0 (sin r)) - PI / 2)
    with (Spec.conformal_forward 0 r).
  rewrite conformal_forward_sphere by exact Hb.
  unfold Spec.conformal_inverse. do 2 f_equal. field.
- exact Hphi.
Qed.

Lemma isometric_round_trip_on_a_sphere_witness :
  eccentricity (utils.resolve (mkEllipsoid 0 0) None) = 0
  /\ 1e-9 - PI / 2 < 1 < PI / 2 - 1e-9
  /\ bind (geodetic2isometric false (utils.sanitize (mkEllipsoid 0 0)) (Fin 1) None false)
          (fun y => isometric2geodetic false (utils.sanitize (mkEllipsoid 0 0)) y None false)
     = Ok (Fin 1).
Proof.
assert (Hphi : 1e-9 - PI / 2 < 1 < PI / 2 - 1e-9) by (generalize PI2_3_2; lra).
split; [reflexivity |]. split; [exact Hphi |].
apply (isometric_round_trip_on_a_sphere false (mkEllipsoid 0 0) None false 1
         eq_refl Hphi).
Defined.

(** ** Monotonicity and out-of-range latitudes *)

Lemma increasing_in_units
    (f : pyfloat -> bool -> result pyfloat) (F : R -> R) :
  (forall x, f x true = in_degrees (fun y => f y false) x) ->
  (forall r, f (Fin r) false = Ok (Fin (F r))) ->
  (forall a b, - (PI / 2) < a -> a < b -> b < PI / 2 -> F a < F b) ->
  forall (deg : bool) (phi1 phi2 : R),
    - (if deg then 90 else PI / 2) < phi1 ->
    phi1 < phi2 ->
    phi2 < (if deg then 90 else PI / 2) ->
    exists r1 r2 : R,
      f (Fin phi1) deg = Ok (Fin r1) /\ f (Fin phi2) deg = Ok (Fin r2)
      /\ r1 < r2.
Proof.
intros Hdeg Hrun Hinc [] phi1 phi2 H1 H12 H2.
- destruct deg_rad_pos as [Hr Hd]. generalize PI_RGT_0; intros Hpi.
  exists (F (phi1 * (PI / 180)) * (180 / PI)),
         (F (phi2 * (PI / 180)) * (180 / PI)).
  rewrite !Hdeg. unfold in_degrees. cbn [Py.radians Py.mul].
  rewrite !Hrun. repeat split.
  apply Rmult_lt_compat_r; [exact Hd |].
  apply Hinc; nra.
- exists (F phi1), (F phi2). rewrite !Hrun. repeat split.
  now apply Hinc.
Qed.

Lemma tan_between_poles_increasing (a b : R) :
  - (PI / 2) < a -> a < b -> b < PI / 2 -> tan a < tan b.
Proof. intros Ha Hab Hb. apply tan_increasing; lra. Qed.

Lemma atan_scaled_tan_increasing (k a b : R) :
  0 < k -> - (PI / 2) < a -> a < b -> b < PI / 2 ->
  atan_scaled_tan k a < atan_scaled_tan k b.
Proof.
intros Hk Ha Hab Hb. rewrite !atan_scaled_tan_inside by lra.
apply atan_increasing, Rmult_lt_compat_l; [exact Hk |].
now apply tan_between_poles_increasing.
Qed.

(** X13.  Between the poles the four arctangent conversions are strictly
    increasing, in either unit: a larger latitude gives a larger result. *)
Theorem closed_forms_are_increasing :
  forall (use_numpy : bool) (dflt : Ellipsoid) (ell : option Ellipsoid)
         (deg : bool) (phi1 phi2 : R) (f : conversion),
    0 <= eccentricity (utils.resolve dflt ell) < 1 ->
    - (if deg then 90 else PI / 2) < phi1 ->
    phi1 < phi2 ->
    phi2 < (if deg then 90 else PI / 2) ->
    In f [geodetic2geocentric; geocentric2geodetic;
          geodetic2parametric; parametric2geodetic] ->
    exists r1 r2 : R,
      f use_numpy (utils.sanitize dflt) (Fin phi1) ell deg = Ok (Fin r1)
      /\ f use_numpy (utils.sanitize dflt) (Fin phi2) ell deg = Ok (Fin r2)
      /\ r1 < r2.
Proof.
intros np dflt ell deg phi1 phi2 f He H1 H12 H2 Hin.
set (e := eccentricity (utils.resolve dflt ell)) in *.
destruct (sqrt_one_minus_e2 dflt ell He) as [Hs _]. fold e in Hs.
assert (Hk : 0 < 1 - e ^ 2) by nra.
simpl in Hin.
repeat (destruct Hin as [<- | Hin]); try contradiction.
- apply (increasing_in_units
           (fun x d => geodetic2geocentric np (utils.sanitize dflt) x ell d)
           (atan_scaled_tan (1 - e ^ 2))); try assumption.
  + apply geodetic2geocentric_deg.
  + intros r. apply geodetic2geocentric_run. exact He.
  + intros a b. now apply atan_scaled_tan_increasing.
- apply (increasing_in_units
           (fun x d => geocentric2geodetic np (utils.sanitize dflt) x ell d)
           (atan_scaled_tan (/ (1 - e ^ 2)))); try assumption.
  + apply geocentric2geodetic_deg.
  + intros r. apply geocentric2geodetic_run. exact He.
  + intros a b. apply atan_scaled_tan_increasing. now apply Rinv_0_lt_compat.
- apply (increasing_in_units
           (fun x d => geodetic2parametric np (utils.sanitize dflt) x ell d)
           (atan_scaled_tan (sqrt (1 - e ^ 2)))); try assumption.
  + apply geodetic2parametric_deg.
  + intros r. apply geodetic2parametric_run. exact He.
  + intros a b. now apply atan_scaled_tan_increasing.
- apply (increasing_in_units
           (fun x d => parametric2geodetic np (utils.sanitize dflt) x ell d)
           (atan_scaled_tan (/ sqrt (1 - e ^ 2)))); try assumption.
  + apply parametric2geodetic_deg.
  + intros r. apply parametric2geodetic_run. exact He.
  + intros a b. apply atan_scaled_tan_increasing. now apply Rinv_0_lt_compat.
Qed.

Lemma closed_forms_are_increasing_witness :
  0 <= eccentricity (utils.resolve wgs84_like None) < 1
  /\ - 90 < 10 /\ 10 < 20 /\ 20 < 90
  /\ exists r1 r2 : R,
      geodetic2geocentric false (utils.sanitize wgs84_like) (Fin 10) None true
      = Ok (Fin r1)
      /\ geodetic2geocentric false (utils.sanitize wgs84_like) (Fin 20) None true
         = Ok (Fin r2)
      /\ r1 < r2.
Proof.
assert (He : 0 <= eccentricity (utils.resolve wgs84_like None) < 1)
  by (simpl; lra).
assert (H1 : - 90 < 10) by lra.
assert (H12 : 10 < 20) by lra.
assert (H2 : 20 < 90) by lra.
repeat (split; [assumption |]).
apply (closed_forms_are_increasing false wgs84_like None true 10 20
         geodetic2geocentric He H1 H12 H2).
simpl. tauto.
Defined.

Lemma tan_plus_PI (x : R) : tan (x + PI) = tan x.
Proof.
unfold tan. rewrite neg_sin, neg_cos.
unfold Rdiv. rewrite Rinv_opp. ring.
Qed.

Lemma sin_even_multiple_shift (x : R) :
  sin (2 * (x + PI)) = sin (2 * x) /\ sin (4 * (x + PI)) = sin (4 * x)
  /\ sin (6 * (x + PI)) = sin (6 * x) /\ sin (8 * (x + PI)) = sin (8 * x).
Proof.
repeat split.
- replace (2 * (x + PI)) with (2 * x + 2 * INR 1 * PI) by (simpl; ring).
  apply sin_period.
- replace (4 * (x + PI)) with (4 * x + 2 * INR 2 * PI) by (simpl; ring).
  apply sin_period.
- replace (6 * (x + PI)) with (6 * x + 2 * INR 3 * PI) by (simpl; ring).
  apply sin_period.
- replace (8 * (x + PI)) with (8 * x + 2 * INR 4 * PI) by (simpl; ring).
  apply sin_period.
Qed.

Lemma half_turn_radians (phi : R) : (phi + 180) * (PI / 180) = phi * (PI / 180) + PI.
Proof. field. Qed.

Lemma atan_scaled_tan_half_turn (k r : R) :
  cos r <> 0 -> atan_scaled_tan k (r + PI) = atan_scaled_tan k r.
Proof.
intros Hc.
assert (Hpole : forall x, cos x <> 0 -> x <> PI / 2 /\ x <> - (PI / 2)).
{ intros x Hx. split; intros ->; apply Hx.
  - apply cos_PI2.
  - rewrite cos_neg. apply cos_PI2. }
assert (Hc' : cos (r + PI) <> 0) by (rewrite neg_cos; lra).
destruct (Hpole r Hc) as [Hn Hs]. destruct (Hpole (r + PI) Hc') as [Hn' Hs'].
rewrite !atan_scaled_tan_regular by assumption.
now rewrite tan_plus_PI.
Qed.

Lemma periodic_in_units
    (f : pyfloat -> bool -> result pyfloat) (F : R -> R) (P : R -> Prop) :
  (forall x, f x true = in_degrees (fun y => f y false) x) ->
  (forall r, f (Fin r) false = Ok (Fin (F r))) ->
  (forall r, P r -> F (r + PI) = F r) ->
  forall (deg : bool) (phi : R),
    P (if deg then phi * (PI / 180) else phi) ->
    f (Fin (phi + (if deg then 180 else PI))) deg = f (Fin phi) deg.
Proof.
intros Hdeg Hrun Hper [] phi HP.
- rewrite !Hdeg. unfold in_degrees. cbn [Py.radians Py.mul].
  rewrite half_turn_radians, !Hrun, Hper by exact HP. reflexivity.
- rewrite !Hrun, Hper by exact HP. reflexivity.
Qed.

(** X14.  Away from the poles the four arctangent conversions do not see a
    half turn: where the cosine of the latitude is not 0, the latitude and
    the latitude plus 180 degrees (PI in radians) give the same result, so
    an out-of-range latitude is read as the one it is congruent to. *)
Theorem closed_forms_ignore_half_turns :
  forall (use_numpy : bool) (dflt : Ellipsoid) (ell : option Ellipsoid)
         (deg : bool) (phi : R) (f : conversion),
    0 <= eccentricity (utils.resolve dflt ell) < 1 ->
    cos (if deg then phi * (PI / 180) else phi) <> 0 ->
    In f [geodetic2geocentric; geocentric2geodetic;
          geodetic2parametric; parametric2geodetic] ->
    f use_numpy (utils.sanitize dflt) (Fin (phi + (if deg then 180 else PI))) ell deg
    = f use_numpy (utils.sanitize dflt) (Fin phi) ell deg.
Proof.
intros np dflt ell deg phi f He Hcos Hin.
set (e := eccentricity (utils.resolve dflt ell)) in *.
simpl in Hin.
repeat (destruct Hin as [<- | Hin]); try contradiction.
- apply (periodic_in_units
           (fun x d => geodetic2geocentric np (utils.sanitize dflt) x ell d)
           (atan_scaled_tan (1 - e ^ 2)) (fun r => cos r <> 0)).
  + apply geodetic2geocentric_deg.
  + intros r. apply geodetic2geocentric_run. exact He.
  + apply atan_scaled_tan_half_turn.
  + exact Hcos.
- apply (periodic_in_units
           (fun x d => geocentric2geodetic np (utils.sanitize dflt) x ell d)
           (atan_scaled_tan (/ (1 - e ^ 2))) (fun r => cos r <> 0)).
  + apply geocentric2geodetic_deg.
  + intros r. apply geocentric2geodetic_run. exact He.
  + apply atan_scaled_tan_half_turn.
  + exact Hcos.
- apply (periodic_in_units
           (fun x d => geodetic2parametric np (utils.sanitize dflt) x ell d)
           (atan_scaled_tan (sqrt (1 - e ^ 2))) (fun r => cos r <> 0)).
  + apply geodetic2parametric_deg.
  + intros r. apply geodetic2parametric_run. exact He.
  + apply atan_scaled_tan_half_turn.
  + exact Hcos.
- apply (periodic_in_units
           (fun x d => parametric2geodetic np (utils.sanitize dflt) x ell d)
           (atan_scaled_tan (/ sqrt (1 - e ^ 2))) (fun r => cos r <> 0)).
  + apply parametric2geodetic_deg.
  + intros r. apply parametric2geodetic_run. exact He.
  + apply atan_scaled_tan_half_turn.
  + exact Hcos.
Qed.

Lemma closed_forms_ignore_half_turns_witness :
  0 <= eccentricity (utils.resolve wgs84_like None) < 1
  /\ cos (-80 * (PI / 180)) <> 0
  /\ geodetic2parametric false (utils.sanitize wgs84_like) (Fin (-80 + 180)) None true
     = geodetic2parametric false (utils.sanitize wgs84_like) (Fin (-80)) None true.
Proof.
assert (He : 0 <= eccentricity (utils.resolve wgs84_like None) < 1)
  by (simpl; lra).
assert (Hcos : cos (-80 * (PI / 180)) <> 0).
{ apply Rgt_not_eq, cos_gt_0; generalize PI_RGT_0; lra. }
split; [exact He |]. split; [exact Hcos |].
apply (closed_forms_ignore_half_turns false wgs84_like None true (-80)
         geodetic2parametric He Hcos).
simpl. tauto.
Defined.

Lemma shift_in_units
    (f : pyfloat -> bool -> result pyfloat) (F : R -> R) :
  (forall x, f x true = in_degrees (fun y => f y false) x) ->
  (forall r, f (Fin r) false = Ok (Fin (F r))) ->
  (forall r, F (r + PI) = F r + PI) ->
  forall (deg : bool) (phi : R),
    exists r : R,
      f (Fin phi) deg = Ok (Fin r)
      /\ f (Fin (phi + (if deg then 180 else PI))) deg
         = Ok (Fin (r + (if deg then 180 else PI))).
Proof.
intros Hdeg Hrun Hshift [] phi.
- exists (F (phi * (PI / 180)) * (180 / PI)).
  rewrite !Hdeg. unfold in_degrees. cbn [Py.radians Py.mul].
  rewrite half_turn_radians, !Hrun, Hshift. cbn [bind Py.degrees Py.mul].
  split; [reflexivity |]. do 2 f_equal. field. apply PI_neq0.
- exists (F phi). rewrite !Hrun, Hshift. split; reflexivity.
Qed.

Ltac series_shift :=
  intros r; unfold Spec.conformal_inverse, Spec.rectifying_forward,
    Spec.rectifying_inverse, Spec.authalic_forward, Spec.authalic_inverse;
  destruct (sin_even_multiple_shift r) as (H2 & H4 & H6 & H8);
  rewrite ?H2, ?H4, ?H6, ?H8; ring.

(** X15.  The five series conversions carry a half turn through: the
    latitude plus 180 degrees (PI in radians) gives the result plus 180
    degrees (PI), since every sine in the series has an even multiple of
    the latitude as argument. *)
Theorem series_shift_by_half_turns :
  forall (use_numpy : bool) (dflt : Ellipsoid) (ell : option Ellipsoid)
         (deg : bool) (phi : R) (f : conversion),
    In f [geodetic2rectifying; rectifying2geodetic; geodetic2authalic;
          authalic2geodetic; conformal2geodetic] ->
    exists r : R,
      f use_numpy (utils.sanitize dflt) (Fin phi) ell deg = Ok (Fin r)
      /\ f use_numpy (utils.sanitize dflt)
           (Fin (phi + (if deg then 180 else PI))) ell deg
         = Ok (Fin (r + (if deg then 180 else PI))).
Proof.
intros np dflt ell deg phi f Hin.
set (e := eccentricity (utils.resolve dflt ell)).
set (n := thirdflattening (utils.resolve dflt ell)).
simpl in Hin.
repeat (destruct Hin as [<- | Hin]); try contradiction.
- apply (shift_in_units
           (fun x d => geodetic2rectifying np (utils.sanitize dflt) x ell d)
           (Spec.rectifying_forward n));
    [apply geodetic2rectifying_deg | reflexivity | series_shift].
- apply (shift_in_units
           (fun x d => rectifying2geodetic np (utils.sanitize dflt) x ell d)
           (Spec.rectifying_inverse n));
    [apply rectifying2geodetic_deg | reflexivity | series_shift].
- apply (shift_in_units
           (fun x d => geodetic2authalic np (utils.sanitize dflt) x ell d)
           (Spec.authalic_forward e));
    [apply geodetic2authalic_deg | reflexivity | series_shift].
- apply (shift_in_units
           (fun x d => authalic2geodetic np (utils.sanitize dflt) x ell d)
           (Spec.authalic_inverse e));
    [apply authalic2geodetic_deg | reflexivity | series_shift].
- apply (shift_in_units
           (fun x d => conformal2geodetic np (utils.sanitize dflt) x ell d)
           (Spec.conformal_inverse e));
    [apply conformal2geodetic_deg | reflexivity | series_shift].
Qed.

Lemma series_shift_by_half_turns_witness :
  In geodetic2authalic
     [geodetic2rectifying; rectifying2geodetic; geodetic2authalic;
      authalic2geodetic; conformal2geodetic]
  /\ exists r : R,
      geodetic2authalic false (utils.sanitize wgs84_like) (Fin 10) None true
      = Ok (Fin r)
      /\ geodetic2authalic false (utils.sanitize wgs84_like) (Fin (10 + 180)) None true
         = Ok (Fin (r + 180)).
Proof.
assert (Hin : In geodetic2authalic
     [geodetic2rectifying; rectifying2geodetic; geodetic2authalic;
      authalic2geodetic; conformal2geodetic]) by (simpl; tauto).
split; [exact Hin |].
exact (series_shift_by_half_turns false wgs84_like None true 10
         geodetic2authalic Hin).
Defined.
